(** * fight2.py: the developer battle (pylint score, winner, leaderboard)

    A shallow embedding of [fight2.py] and the properties of its
    score extractor, ranking store and battle orchestrator.

    - Python [str] is a list of Unicode code points.
    - Python [float] is IEEE 754 binary64, as the standard library's
      [spec_float] with [prec = 53] and [emax = 1024].
    - A [dict] is an association list in insertion order with unique keys.
    - Effects (the ranking file, temporary files, the linter process, the
      Streamlit page) go through a state-and-exception monad over [world].
    - What Python's runtime and the linter do ([float()], [json], the
      [pylint] process) is a [runtime] record the program is run against;
      [py_runtime] is a concrete one, used to evaluate the program.

    The program is modelled in two layers. Under their source names the
    functions run in an environment that behaves: a temporary file can
    always be created and written, files hold text as written, and the
    linter's answer depends on the text of the file it is given, not on
    its name. The module [Codec] then gives the files their text
    encoding: [temp.write] and [json.dump] raise [UnicodeEncodeError] on
    a text the encoding of the file has no bytes for. On every text the
    encoding can hold the two layers are the same function
    ([get_pylint_score_written], [save_rankings_written]). *)

From Stdlib Require Import List ZArith NArith Bool Ascii String Lia.
From Stdlib Require Import SpecFloat.
From Stdlib Require Import Sorted Permutation.
Import ListNotations.

Local Open Scope N_scope.
Local Open Scope list_scope.

(** ** Python strings *)

Definition char := N.
Definition str := list char.

(** A string literal of the source (ASCII). *)
Definition lit (s : string) : str := List.map N_of_ascii (list_ascii_of_string s).

Fixpoint str_eqb (a b : str) : bool :=
  match a, b with
  | [], [] => true
  | x :: a', y :: b' => (x =? y) && str_eqb a' b'
  | _, _ => false
  end.

(** [s.startswith(prefix)] *)
Fixpoint startswith (s prefix : str) : bool :=
  match prefix with
  | [] => true
  | p :: prefix' =>
      match s with
      | [] => false
      | c :: s' => (c =? p) && startswith s' prefix'
      end
  end.

(** [s.split(sep)] for a one-character separator: every occurrence cuts,
    so the result is never empty and may hold empty strings. *)
Fixpoint split (sep : char) (s : str) : list str :=
  match s with
  | [] => [[]]
  | c :: s' =>
      if c =? sep then [] :: split sep s'
      else match split sep s' with
           | w :: ws => (c :: w) :: ws
           | [] => [[c]]
           end
  end.

(** [str.isspace] for one character: the code points CPython's
    [_PyUnicode_IsWhitespace] accepts. *)
Definition isspace (c : char) : bool :=
  ((0x09 <=? c) && (c <=? 0x0D)) || ((0x1C <=? c) && (c <=? 0x20))
  || (c =? 0x85) || (c =? 0xA0) || (c =? 0x1680)
  || ((0x2000 <=? c) && (c <=? 0x200A))
  || (c =? 0x2028) || (c =? 0x2029) || (c =? 0x202F) || (c =? 0x205F)
  || (c =? 0x3000).

Fixpoint lstrip (s : str) : str :=
  match s with
  | [] => []
  | c :: s' => if isspace c then lstrip s' else s
  end.

Definition rstrip (s : str) : str := rev (lstrip (rev s)).

(** [s.strip()] *)
Definition strip (s : str) : str := rstrip (lstrip s).

(** Truth value of a string or a list: non-empty. *)
Definition truthy {A} (l : list A) : bool :=
  match l with [] => false | _ :: _ => true end.

(** ** Python floats *)

Definition float := spec_float.

Definition prec : Z := 53.
Definition emax : Z := 1024.

Definition float_of_Z (z : Z) : float := binary_normalize prec emax z 0 false.

(** [a < b], [a > b], [a == b], [a <= b] on floats: false on NaN. *)
Definition flt (a b : float) : bool := SFltb a b.
Definition fgt (a b : float) : bool := SFltb b a.
Definition feq (a b : float) : bool := SFeqb a b.

Definition f0 : float := S754_zero false.
Definition f10 : float := float_of_Z 10.



(** ** Dictionaries: [rankings] *)

(** A [dict] from names to scores, in insertion order. *)
Definition rankings_t := list (str * float).

Fixpoint dict_get (k : str) (d : rankings_t) : option float :=
  match d with
  | [] => None
  | (k', v) :: d' => if str_eqb k' k then Some v else dict_get k d'
  end.

(** [d[k] = v]: an existing key keeps its place, a new one goes last. *)
Fixpoint dict_set (k : str) (v : float) (d : rankings_t) : rankings_t :=
  match d with
  | [] => [(k, v)]
  | (k', v') :: d' =>
      if str_eqb k' k then (k', v) :: d' else (k', v') :: dict_set k v d'
  end.

Definition keys (d : rankings_t) : list str := List.map fst d.

(** ** Exceptions, the world and the monad *)

Inductive exn :=
| IndexError
| ValueError
| JSONDecodeError
| OSError (what : str)
| UnicodeEncodeError.

Inductive result (A : Type) :=
| Return (a : A)
| Raise (e : exn).
Arguments Return {A} a.
Arguments Raise {A} e.

(** What [subprocess.run] gives back: it raises (the program cannot be
    started), or the process ran and left an exit status and its output. *)
Record CompletedProcess := {
  returncode : Z;
  stdout : str;
  stderr : str
}.

(** What the page shows, one constructor per Streamlit call and message. *)
Inductive ui :=
| st_title                                  (* "개발자 전투력 측정기" *)
| st_markdown_intro
| st_text_input (key : str)
| st_header_code (dev : str)                (* f"{dev}의 코드" *)
| st_text_area (key : str)
| st_button
| st_warning_no_code                        (* "... 적어도 하나를 입력해주세요." *)
| st_markdown_rule                          (* "---" *)
| st_header_result                          (* "전투 결과" *)
| st_subheader_score (dev : str) (score : float)   (* f"{dev}의 점수: {score:.2f}/10" *)
| st_subheader_missing (dev : str)          (* f"{dev}의 코드가 입력되지 않았습니다." *)
| st_success_winner (dev : str)             (* f"{dev}(이)가 우승했습니다!" *)
| st_success_auto (dev : str)               (* f"{dev}만 코드가 제출되어 자동으로 우승합니다!" *)
| st_info_tie                               (* "무승부입니다!" *)
| st_error_pylint (e : exn)                 (* f"Pylint 실행 중 오류 발생: {e}" *)
| st_markdown_review_title
| st_markdown_review (dev : str) (review : str)
| st_info_no_rankings                       (* "랭킹 데이터가 없습니다." *)
| st_header_rankings                        (* "현재 랭킹" *)
| st_write_rank (idx : N) (dev : str) (score : float).

(** What a run does to the outside, in order. *)
Inductive event :=
| Show (u : ui)
| TempCreated (path : N)
| PylintRun (path : N)
| TempRemoved (path : N)
| RankingRead
| RankingWritten (text : str).

Record world := {
  ranking_file : option str;      (* the text of RANKING_FILE, if it exists *)
  temp_files : list (N * str);    (* the temporary directory: name, text *)
  log : list event
}.

Definition emit (e : event) (w : world) : world :=
  {| ranking_file := ranking_file w;
     temp_files := temp_files w;
     log := log w ++ [e] |}.

Definition M (A : Type) := world -> result A * world.

Definition ret {A} (a : A) : M A := fun w => (Return a, w).

Definition raise {A} (e : exn) : M A := fun w => (Raise e, w).

Definition bind {A B} (m : M A) (k : A -> M B) : M B :=
  fun w =>
    match m w with
    | (Return a, w') => k a w'
    | (Raise e, w') => (Raise e, w')
    end.

Declare Scope py_scope.
Delimit Scope py_scope with py.
Notation "x <- m ;; k" := (bind m (fun x => k))
  (at level 61, m at next level, right associativity) : py_scope.
Notation "' pat <- m ;; k" := (bind m (fun x => match x with pat => k end))
  (at level 61, pat pattern, m at next level, right associativity) : py_scope.
Notation "m ;; k" := (bind m (fun _ => k))
  (at level 61, right associativity) : py_scope.
Local Open Scope py_scope.

(** A pure computation that may raise. *)
Definition lift {A} (r : result A) : M A := fun w => (r, w).

(** [try: body  except Exception as e: handler e] *)
Definition try_except {A} (body : M A) (handler : exn -> M A) : M A :=
  fun w =>
    match body w with
    | (Return a, w') => (Return a, w')
    | (Raise e, w') => handler e w'
    end.

(** [try: body  finally: fin]: [fin] runs on every exit of [body]; what
    [body] returned or raised stands unless [fin] raises itself. *)
Definition try_finally {A} (body : M A) (fin : M unit) : M A :=
  fun w =>
    let '(r, w') := body w in
    match fin w' with
    | (Return _, w'') => (r, w'')
    | (Raise e, w'') => (Raise e, w'')
    end.

Definition show (u : ui) : M unit := fun w => (Return tt, emit (Show u) w).

(** [l[i]] *)
Definition getitem {A} (l : list A) (i : nat) : result A :=
  match nth_error l i with
  | Some x => Return x
  | None => Raise IndexError
  end.

Definition rbind {A B} (r : result A) (k : A -> result B) : result B :=
  match r with
  | Return a => k a
  | Raise e => Raise e
  end.

(** ** The runtime the program runs against *)

Record runtime := {
  (** [pylint <path> --score=y] on a file with the given text ([None]: no
      such file): the call raises, or the process completes. *)
  pylint : option str -> result CompletedProcess;
  (** [float(s)]: a float, or [ValueError]. *)
  py_float : str -> option float;
  (** [json.dump(rankings, f, ensure_ascii=False, indent=4)]: the text. *)
  json_dump : rankings_t -> str;
  (** [json.load(f)]: the mapping, or [None] when decoding raises. *)
  json_load : str -> option rankings_t
}.

(** ** The ranking store *)

Definition RANKING_FILE : str := lit "ranking.json".

Definition load_rankings (rt : runtime) : M rankings_t :=
  fun w =>
    match ranking_file w with
    | Some text =>
        match json_load rt text with
        | Some rankings => (Return rankings, emit RankingRead w)
        | None => (Raise JSONDecodeError, emit RankingRead w)
        end
    | None => (Return [], w)
    end.

Definition save_rankings (rt : runtime) (rankings : rankings_t) : M unit :=
  fun w =>
    let text := json_dump rt rankings in
    (Return tt,
     emit (RankingWritten text)
       {| ranking_file := Some text;
          temp_files := temp_files w;
          log := log w |}).

(** ** The score extractor *)

Fixpoint lookup (path : N) (files : list (N * str)) : option str :=
  match files with
  | [] => None
  | (p, text) :: files' => if p =? path then Some text else lookup path files'
  end.

Fixpoint unlink (path : N) (files : list (N * str)) : list (N * str) :=
  match files with
  | [] => []
  | (p, text) :: files' =>
      if p =? path then unlink path files' else (p, text) :: unlink path files'
  end.

(** A name no file of the directory has. *)
Definition fresh (files : list (N * str)) : N :=
  N.succ (fold_right (fun f acc => N.max (fst f) acc) 0 files).

(** [with tempfile.NamedTemporaryFile(delete=False, suffix=".py", mode='w')
    as temp: temp.write(code); temp_path = temp.name] *)
Definition NamedTemporaryFile (code : str) : M N :=
  fun w =>
    let temp_path := fresh (temp_files w) in
    (Return temp_path,
     emit (TempCreated temp_path)
       {| ranking_file := ranking_file w;
          temp_files := (temp_path, code) :: temp_files w;
          log := log w |}).

(** [subprocess.run(['pylint', temp_path, '--score=y'], ...)] *)
Definition subprocess_run (rt : runtime) (temp_path : N) : M CompletedProcess :=
  fun w => (pylint rt (lookup temp_path (temp_files w)), emit (PylintRun temp_path) w).

(** [os.remove(temp_path)] *)
Definition os_remove (temp_path : N) : M unit :=
  fun w =>
    match lookup temp_path (temp_files w) with
    | Some _ =>
        (Return tt,
         emit (TempRemoved temp_path)
           {| ranking_file := ranking_file w;
              temp_files := unlink temp_path (temp_files w);
              log := log w |})
    | None => (Raise (OSError (lit "No such file or directory")), w)
    end.

Definition rating_prefix : str := lit "Your code has been rated at".

Definition nl : char := 10.
Definition space : char := 32.
Definition slash : char := 47.

(** [float(s)] *)
Definition float_ (rt : runtime) (s : str) : result float :=
  match py_float rt s with
  | Some x => Return x
  | None => Raise ValueError
  end.

(** The [for line in ...] loop of [get_pylint_score] with the [return 0.0]
    that follows it. *)
Fixpoint scan_lines (rt : runtime) (lines : list str) : result float :=
  match lines with
  | [] => Return f0
  | line :: lines' =>
      if startswith line rating_prefix then
        rbind (getitem (split space line) 6) (fun score_str =>
        rbind (getitem (split slash score_str) 0) (fun numerator =>
        float_ rt numerator))
      else scan_lines rt lines'
  end.

Definition get_pylint_score (rt : runtime) (code : str) : M float :=
  temp_path <- NamedTemporaryFile code ;;
  try_finally
    (try_except
       (result <- subprocess_run rt temp_path ;;
        lift (scan_lines rt (split nl (stdout result))))
       (fun e => show (st_error_pylint e) ;; ret f0))
    (os_remove temp_path).

(** ** Rankings *)

Definition update_rankings (rankings : rankings_t) (developer : str) (score : float)
  : rankings_t :=
  dict_set developer score rankings.

(** [sorted(rankings.items(), key=lambda x: x[1], reverse=True)]: by
    descending score, equal scores in the order of the dictionary (a
    stable insertion; with a NaN among the scores Python's order depends
    on its sorting algorithm and is not modelled). *)
Fixpoint insert_desc (x : str * float) (l : list (str * float)) : list (str * float) :=
  match l with
  | [] => [x]
  | y :: l' => if flt (snd x) (snd y) then y :: insert_desc x l' else x :: l
  end.

Definition sorted_desc (items : list (str * float)) : list (str * float) :=
  fold_right insert_desc [] items.

Fixpoint write_ranks (idx : N) (rows : list (str * float)) : M unit :=
  match rows with
  | [] => ret tt
  | (dev, score) :: rows' =>
      show (st_write_rank idx dev score) ;; write_ranks (N.succ idx) rows'
  end.

Definition display_rankings (rankings : rankings_t) : M unit :=
  if negb (truthy rankings) then show st_info_no_rankings
  else
    show st_markdown_rule ;;
    show st_header_rankings ;;
    write_ranks 1 (sorted_desc rankings).

(** ** The battle *)

(** What the widgets of the page return in one run of the script. *)
Record session := {
  dev_a : str;      (* st.text_input(..., key="dev_a") *)
  dev_b : str;      (* st.text_input(..., key="dev_b") *)
  code_a : str;     (* st.text_area(..., key="code_a") *)
  code_b : str;     (* st.text_area(..., key="code_b") *)
  button : bool     (* st.button("전투 시작!") *)
}.

(** [if code.strip(): score = get_pylint_score(code); st.subheader(...);
    rankings = update_rankings(rankings, dev, score)  else: st.subheader(...)],
    with [score] starting as [None]. *)
Definition score_side (rt : runtime) (dev code : str) (rankings : rankings_t)
  : M (option float * rankings_t) :=
  if truthy (strip code) then
    score <- get_pylint_score rt code ;;
    show (st_subheader_score dev score) ;;
    ret (Some score, update_rankings rankings dev score)
  else
    show (st_subheader_missing dev) ;;
    ret (None, rankings).

(** The [if]/[elif] chain under "우승자 결정": the message it shows, if any. *)
Definition winner_message (dev_a dev_b : str) (score_a score_b : option float)
  : option ui :=
  match score_a, score_b with
  | Some a, Some b =>
      if fgt a b then Some (st_success_winner dev_a)
      else if fgt b a then Some (st_success_winner dev_b)
      else Some st_info_tie
  | Some _, None => Some (st_success_auto dev_a)
  | None, Some _ => Some (st_success_auto dev_b)
  | None, None => None
  end.

Definition show_winner (dev_a dev_b : str) (score_a score_b : option float) : M unit :=
  match winner_message dev_a dev_b score_a score_b with
  | Some u => show u
  | None => ret tt
  end.

(** [if review: st.markdown(...)] with [review] still the empty string. *)
Definition show_review (dev review : str) : M unit :=
  if truthy review then show (st_markdown_review dev review) else ret tt.

(** Both sides scored in turn (lines 114 to 131): the two scores and the
    dictionary [rankings] is bound to afterwards. *)
Definition score_sides (rt : runtime) (s : session) (rankings : rankings_t)
  : M (option float * option float * rankings_t) :=
  '(score_a, rankings) <- score_side rt (dev_a s) (code_a s) rankings ;;
  '(score_b, rankings) <- score_side rt (dev_b s) (code_b s) rankings ;;
  ret (score_a, score_b, rankings).

(** The body of [if st.button(...)]. It returns the dictionary [rankings]
    is bound to when the block is left. *)
Definition battle (rt : runtime) (s : session) (rankings : rankings_t)
  : M rankings_t :=
  if negb (truthy (strip (code_a s))) && negb (truthy (strip (code_b s))) then
    show st_warning_no_code ;;
    ret rankings
  else
    show st_markdown_rule ;;
    show st_header_result ;;
    '(score_a, score_b, rankings) <- score_sides rt s rankings ;;
    show_winner (dev_a s) (dev_b s) score_a score_b ;;
    save_rankings rt rankings ;;
    show st_markdown_review_title ;;
    show_review (dev_a s) [] ;;
    show_review (dev_b s) [] ;;
    display_rankings rankings ;;
    ret rankings.

(** The page up to the button: title, the ranking file read, the widgets
    ([st.columns] only lays them out). *)
Definition page (rt : runtime) (s : session) : M rankings_t :=
  show st_title ;;
  show st_markdown_intro ;;
  rankings <- load_rankings rt ;;
  show (st_text_input (lit "dev_a")) ;;
  show (st_text_input (lit "dev_b")) ;;
  show (st_header_code (dev_a s)) ;;
  show (st_text_area (lit "code_a")) ;;
  show (st_header_code (dev_b s)) ;;
  show (st_text_area (lit "code_b")) ;;
  show st_button ;;
  ret rankings.

Definition main (rt : runtime) (s : session) : M unit :=
  rankings <- page rt s ;;
  if button s then
    _ <- battle rt s rankings ;;
    ret tt
  else ret tt.

(** ** A concrete runtime: [float()] *)

Definition is_digit (c : char) : bool := (48 <=? c) && (c <=? 57).

Definition digit_val (c : char) : Z := Z.of_N (c - 48).

(** The longest prefix of [s] whose characters satisfy [p], and the rest. *)
Fixpoint span (p : char -> bool) (s : str) : str * str :=
  match s with
  | [] => ([], [])
  | c :: s' =>
      if p c then let '(a, b) := span p s' in (c :: a, b) else ([], s)
  end.

Definition digits_val (ds : str) : Z :=
  fold_left (fun acc c => 10 * acc + digit_val c)%Z ds 0%Z.

Definition tolower (c : char) : char :=
  if (65 <=? c) && (c <=? 90) then c + 32 else c.

Definition underscore : char := 95.

(** Underscores of a numeric literal: allowed only between two digits, and
    dropped ([_Py_string_to_number_with_underscores]). *)
Fixpoint drop_underscores (prev : char) (s : str) : option str :=
  match s with
  | [] => if prev =? underscore then None else Some []
  | c :: s' =>
      if c =? underscore then
        if is_digit prev then drop_underscores c s' else None
      else if (prev =? underscore) && negb (is_digit c) then None
      else option_map (cons c) (drop_underscores c s')
  end.

(** The binary64 nearest to [(-1)^neg * n * 10^k], ties to even. *)
Definition decimal_to_float (neg : bool) (n k : Z) : float :=
  match n with
  | Zpos p =>
      if (0 <=? k)%Z then
        binary_normalize prec emax (cond_Zopp neg (n * 10 ^ k)) 0 false
      else
        SFdiv prec emax (S754_finite neg p 0)
                        (S754_finite false (Z.to_pos (10 ^ (- k))) 0)
  | _ => S754_zero neg
  end.

(** An optional sign: whether it is a minus, and the rest. *)
Definition take_sign (s : str) : bool * str :=
  match s with
  | 43 :: s' => (false, s')
  | 45 :: s' => (true, s')
  | _ => (false, s)
  end.

(** The exponent part [e[+-]digits] at the front of [s], if there is one:
    its value and the rest; without digits nothing is consumed. *)
Definition take_exponent (s : str) : Z * str :=
  match s with
  | c :: s' =>
      if tolower c =? 101 then
        let '(eneg, s'') := take_sign s' in
        let '(ds, rest) := span is_digit s'' in
        if truthy ds then (cond_Zopp eneg (digits_val ds), rest) else (0%Z, s)
      else (0%Z, s)
  | [] => (0%Z, s)
  end.

(** [PyOS_string_to_double] on the whole string: a sign, then [inf],
    [infinity] or [nan] in any case, or digits with an optional fraction
    and exponent. *)
Definition string_to_double (s : str) : option float :=
  let '(neg, body) := take_sign s in
  let low := List.map tolower body in
  if str_eqb low (lit "inf") || str_eqb low (lit "infinity") then
    Some (S754_infinity neg)
  else if str_eqb low (lit "nan") then Some S754_nan
  else
    let '(ip, r1) := span is_digit body in
    let '(fp, r2) :=
      match r1 with
      | 46 :: r1' => span is_digit r1'
      | _ => ([], r1)
      end in
    if truthy (ip ++ fp) then
      let '(e, r3) := take_exponent r2 in
      if truthy r3 then None
      else Some (decimal_to_float neg (digits_val (ip ++ fp))
                                  (e - Z.of_nat (List.length fp)))
    else None.

(** [float(s)] for a string of ASCII digits: surrounding whitespace is
    dropped, underscores between digits are allowed. (Python also reads the
    decimal digits of other scripts; those are [ValueError] here.) *)
Definition float_of_str (s : str) : option float :=
  match drop_underscores 0 (strip s) with
  | Some s' => string_to_double s'
  | None => None
  end.

(** ** A concrete runtime: [repr] of a float *)

Definition char_of_digit (d : Z) : char := 48 + Z.to_N d.

(** The decimal digits of [n >= 0], most significant first. *)
Fixpoint digits_of_fuel (fuel : nat) (n : Z) (acc : str) : str :=
  match fuel with
  | O => acc
  | S fuel' =>
      let acc' := char_of_digit (n mod 10) :: acc in
      if (n <? 10)%Z then acc' else digits_of_fuel fuel' (n / 10) acc'
  end.

Definition digits_of (n : Z) : str :=
  digits_of_fuel (S (Z.to_nat (Z.log2 n))) n [].

(** [a / b] rounded to the nearest integer, ties to even ([b > 0]). *)
Definition div_half_even (a b : Z) : Z :=
  let q := (a / b)%Z in
  match (2 * (a mod b) ?= b)%Z with
  | Lt => q
  | Gt => (q + 1)%Z
  | Eq => if Z.even q then q else (q + 1)%Z
  end.

(** [num / den * 10^k] as a fraction. *)
Definition scale10 (num den k : Z) : Z * Z :=
  if (0 <=? k)%Z then ((num * 10 ^ k)%Z, den) else (num, (den * 10 ^ (- k))%Z).

(** The least [d >= d0] with [num / den < 10^d], looking [fuel] steps up. *)
Fixpoint find_decpt (fuel : nat) (num den d0 : Z) : Z :=
  match fuel with
  | O => d0
  | S fuel' =>
      let '(a, b) := scale10 num den (- d0) in
      if (a <? b)%Z then d0 else find_decpt fuel' num den (d0 + 1)
  end.

(** The position of the decimal point of [num / den > 0]: the [d] with
    [10^(d-1) <= num/den < 10^d]. *)
Definition decpt_of (num den : Z) : Z :=
  let est := ((Z.log2 num - Z.log2 den) * 30103 / 100000)%Z in
  find_decpt 6 num den (est - 2).

(** [num / den] rounded to [p] significant digits: the digits as an
    integer of [p] digits, and the position of the decimal point. *)
Definition round_digits (num den : Z) (p : Z) : Z * Z :=
  let d := decpt_of num den in
  let '(a, b) := scale10 num den (p - d) in
  let D := div_half_even a b in
  if (D =? 10 ^ p)%Z then (10 ^ (p - 1), d + 1)%Z else (D, d).

Definition finite_eqb (m : positive) (e : Z) (x : float) : bool :=
  match x with
  | S754_finite false m' e' => Pos.eqb m m' && Z.eqb e e'
  | _ => false
  end.

(** The shortest digit string that reads back as [m * 2^e], trying 1, 2,
    ... digits, and 17 digits at the latest. *)
Fixpoint shortest_digits (fuel : nat) (p : Z) (m : positive) (e : Z) : Z * Z :=
  let '(num, den) :=
    if (0 <=? e)%Z then ((Zpos m * 2 ^ e)%Z, 1%Z) else (Zpos m, (2 ^ (- e))%Z) in
  let '(D, d) := round_digits num den p in
  match fuel with
  | O => (D, d)
  | S fuel' =>
      if finite_eqb m e (decimal_to_float false D (d - p)) then (D, d)
      else shortest_digits fuel' (p + 1) m e
  end.

Fixpoint strip_zeros_rev (r : str) : str :=
  match r with
  | 48 :: r' => strip_zeros_rev r'
  | _ => r
  end.

(** Digits without their trailing zeros (one digit stays). *)
Definition strip_trailing_zeros (ds : str) : str :=
  match rev (strip_zeros_rev (rev ds)) with
  | [] => [48]
  | ds' => ds'
  end.

Definition zeros (n : Z) : str := repeat 48 (Z.to_nat n).

(** [repr] of a positive finite float with the given digits and decimal
    point: exponent form when [decpt <= -4] or [decpt > 16]. *)
Definition format_repr (ds : str) (decpt : Z) : str :=
  let n := Z.of_nat (List.length ds) in
  if (decpt <=? -4)%Z || (16 <? decpt)%Z then
    let ex := (decpt - 1)%Z in
    let mant :=
      match ds with
      | d1 :: (_ :: _) as tl => d1 :: 46 :: tl
      | _ => ds
      end in
    let exd := digits_of (Z.abs ex) in
    let exd := if (Z.abs ex <? 10)%Z then 48 :: exd else exd in
    mant ++ [101; if (ex <? 0)%Z then 45 else 43] ++ exd
  else if (decpt <=? 0)%Z then
    lit "0." ++ zeros (- decpt) ++ ds
  else if (n <=? decpt)%Z then
    ds ++ zeros (decpt - n) ++ lit ".0"
  else
    firstn (Z.to_nat decpt) ds ++ [46] ++ skipn (Z.to_nat decpt) ds.

(** [repr(x)] (also [float.__repr__]). *)
Definition float_repr (x : float) : str :=
  match x with
  | S754_nan => lit "nan"
  | S754_infinity s => if s then lit "-inf" else lit "inf"
  | S754_zero s => if s then lit "-0.0" else lit "0.0"
  | S754_finite s m e =>
      let '(D, d) := shortest_digits 16 1 m e in
      (if s then [45] else []) ++ format_repr (strip_trailing_zeros (digits_of D)) d
  end.

(** ** A concrete runtime: [json] *)

Definition quote : char := 34.
Definition backslash : char := 92.

Definition hex_digit (d : N) : char := if d <? 10 then 48 + d else 87 + d.

(** What [json] writes for one character of a string with
    [ensure_ascii=False]: the quote, the backslash and the control
    characters are escaped, everything else stands for itself. *)
Definition escape_char (c : char) : str :=
  if c =? quote then [backslash; quote]
  else if c =? backslash then [backslash; backslash]
  else if c =? 10 then [backslash; 110]
  else if c =? 13 then [backslash; 114]
  else if c =? 9 then [backslash; 116]
  else if c =? 8 then [backslash; 98]
  else if c =? 12 then [backslash; 102]
  else if c <? 32 then
    [backslash; 117; 48; 48; hex_digit (c / 16); hex_digit (c mod 16)]
  else [c].

Definition encode_str (s : str) : str :=
  quote :: flat_map escape_char s ++ [quote].

(** [float.__repr__], but [NaN], [Infinity] and [-Infinity] for the values
    JSON has no literal for. *)
Definition floatstr (x : float) : str :=
  match x with
  | S754_nan => lit "NaN"
  | S754_infinity false => lit "Infinity"
  | S754_infinity true => lit "-Infinity"
  | _ => float_repr x
  end.

Definition indent4 : str := lit "    ".

Definition encode_item (kv : str * float) : str :=
  indent4 ++ encode_str (fst kv) ++ lit ": " ++ floatstr (snd kv).

Fixpoint encode_items (d : rankings_t) : str :=
  match d with
  | [] => []
  | [kv] => encode_item kv
  | kv :: d' => encode_item kv ++ lit "," ++ [nl] ++ encode_items d'
  end.

(** [json.dumps(rankings, ensure_ascii=False, indent=4)] *)
Definition json_dumps (d : rankings_t) : str :=
  match d with
  | [] => lit "{}"
  | _ => lit "{" ++ [nl] ++ encode_items d ++ [nl] ++ lit "}"
  end.

Definition hex_val (c : char) : option N :=
  if is_digit c then Some (c - 48)
  else if (97 <=? c) && (c <=? 102) then Some (c - 87)
  else if (65 <=? c) && (c <=? 70) then Some (c - 55)
  else None.

(** Four hexadecimal digits at the front of [s]. *)
Definition take_hex4 (s : str) : option (N * str) :=
  match s with
  | a :: b :: c :: d :: rest =>
      match hex_val a, hex_val b, hex_val c, hex_val d with
      | Some a, Some b, Some c, Some d =>
          Some (((a * 16 + b) * 16 + c) * 16 + d, rest)
      | _, _, _, _ => None
      end
  | _ => None
  end.

(** A [\uXXXX] escape after its [u]: a high surrogate followed by the
    escape of a low one makes one character. *)
Definition take_unicode (s : str) : option (char * str) :=
  match take_hex4 s with
  | Some (u, rest) =>
      if (0xD800 <=? u) && (u <=? 0xDBFF) then
        match rest with
        | 92 :: 117 :: rest' =>
            match take_hex4 rest' with
            | Some (u2, rest'') =>
                if (0xDC00 <=? u2) && (u2 <=? 0xDFFF) then
                  Some (0x10000 + ((u - 0xD800) * 1024 + (u2 - 0xDC00)), rest'')
                else Some (u, rest)
            | None => Some (u, rest)
            end
        | _ => Some (u, rest)
        end
      else Some (u, rest)
  | None => None
  end.

(** The body of a JSON string after its opening quote, up to and
    including the closing one: the string and the rest of the text. *)
Fixpoint scanstring (fuel : nat) (s : str) : option (str * str) :=
  match fuel with
  | O => None
  | S fuel' =>
      match s with
      | [] => None
      | c :: s' =>
          if c =? quote then Some ([], s')
          else if c =? backslash then
            match s' with
            | [] => None
            | e :: s'' =>
                let plain (x : char) :=
                  option_map (fun r => (x :: fst r, snd r)) (scanstring fuel' s'') in
                if e =? quote then plain quote
                else if e =? backslash then plain backslash
                else if e =? slash then plain slash
                else if e =? 98 then plain 8
                else if e =? 102 then plain 12
                else if e =? 110 then plain 10
                else if e =? 114 then plain 13
                else if e =? 116 then plain 9
                else if e =? 117 then
                  match take_unicode s'' with
                  | Some (u, rest) =>
                      option_map (fun r => (u :: fst r, snd r)) (scanstring fuel' rest)
                  | None => None
                  end
                else None
            end
          else if c <? 32 then None
          else option_map (fun r => (c :: fst r, snd r)) (scanstring fuel' s')
      end
  end.

(** JSON whitespace. *)
Definition is_ws (c : char) : bool :=
  (c =? 32) || (c =? 9) || (c =? 10) || (c =? 13).

Definition skip_ws (s : str) : str := snd (span is_ws s).

(** The pieces of a JSON number, each taken from the front of a text and
    returned with the rest: an optional minus; a single zero or digits;
    a point with at least one digit, or nothing; [e] or [E] with an
    optional sign and at least one digit, or nothing. *)
Definition take_minus (s : str) : str * str :=
  match s with
  | c :: s1 => if c =? 45 then ([c], s1) else ([], s)
  | [] => ([], s)
  end.

Definition take_int (s : str) : str * str :=
  match s with
  | c :: s2 => if c =? 48 then ([c], s2) else span is_digit s
  | [] => ([], s)
  end.

Definition take_frac (s : str) : str * str :=
  match s with
  | c :: s' =>
      if c =? 46 then
        let '(fd, r) := span is_digit s' in
        if truthy fd then (c :: fd, r) else ([], s)
      else ([], s)
  | [] => ([], s)
  end.

(** The sign of an exponent. *)
Definition take_plus_minus (s : str) : str * str :=
  match s with
  | c :: r => if (c =? 43) || (c =? 45) then ([c], r) else ([], s)
  | [] => ([], s)
  end.

Definition take_exp (s : str) : str * str :=
  match s with
  | c :: s' =>
      if (c =? 101) || (c =? 69) then
        let '(sg, s'') := take_plus_minus s' in
        let '(ed, r) := span is_digit s'' in
        if truthy ed then (c :: sg ++ ed, r) else ([], s)
      else ([], s)
  | [] => ([], s)
  end.

(** The text of a JSON number at the front of [s], as the decoder's
    pattern for numbers matches it: the integer part with its sign, the
    fraction, the exponent, and the rest. *)
Definition match_number (s : str) : option (str * str * str * str) :=
  let '(sign, s1) := take_minus s in
  let '(ip, s2) := take_int s1 in
  if truthy ip then
    let '(frac, s3) := take_frac s2 in
    let '(ex, s4) := take_exp s3 in
    Some (sign ++ ip, frac, ex, s4)
  else None.

Definition int_of_str (s : str) : Z :=
  match s with
  | 45 :: ds => (- digits_val ds)%Z
  | _ => digits_val s
  end.

(** A JSON value of the ranking file: a number, or one of the constants
    [NaN], [Infinity], [-Infinity]. With a fraction or an exponent the
    number goes through [float()]; an integer literal is read as the float
    of that value (Python keeps an [int], which prints and compares like
    it). Any other JSON value has no place in [rankings_t]. *)
Definition scan_number (s : str) : option (float * str) :=
  match match_number s with
  | Some (integer, frac, ex, rest) =>
      if truthy frac || truthy ex then
        option_map (fun x => (x, rest)) (float_of_str (integer ++ frac ++ ex))
      else Some (float_of_Z (int_of_str integer), rest)
  | None =>
      if startswith s (lit "NaN") then Some (S754_nan, skipn 3 s)
      else if startswith s (lit "Infinity") then Some (S754_infinity false, skipn 8 s)
      else if startswith s (lit "-Infinity") then Some (S754_infinity true, skipn 9 s)
      else None
  end.

(** The pairs of a JSON object after a key's opening quote is due, up to
    and including the closing brace. A key met again keeps its place and
    takes the later value, as [dict(pairs)] does. *)
Fixpoint scan_pairs (fuel : nat) (s : str) (acc : rankings_t)
  : option (rankings_t * str) :=
  match fuel with
  | O => None
  | S fuel' =>
      match s with
      | 34 :: s1 =>
          match scanstring (List.length s1) s1 with
          | Some (key, s2) =>
              match skip_ws s2 with
              | 58 :: s3 =>
                  match scan_number (skip_ws s3) with
                  | Some (value, s4) =>
                      let acc' := dict_set key value acc in
                      match skip_ws s4 with
                      | 44 :: s5 => scan_pairs fuel' (skip_ws s5) acc'
                      | 125 :: s5 => Some (acc', s5)
                      | _ => None
                      end
                  | None => None
                  end
              | _ => None
              end
          | None => None
          end
      | _ => None
      end
  end.

(** [json.loads(text)] for a ranking file: one object of names and
    numbers, with nothing but whitespace around it. *)
Definition json_loads (text : str) : option rankings_t :=
  match skip_ws text with
  | 123 :: s1 =>
      match skip_ws s1 with
      | 125 :: s2 => if truthy (skip_ws s2) then None else Some []
      | s1' =>
          match scan_pairs (List.length s1') s1' [] with
          | Some (d, s2) => if truthy (skip_ws s2) then None else Some d
          | None => None
          end
      end
  | _ => None
  end.

(** ** A concrete runtime *)

(** Python's [float] and [json] as modelled above, and a given linter. *)
Definition py_runtime (linter : option str -> result CompletedProcess) : runtime :=
  {| pylint := linter;
     py_float := float_of_str;
     json_dump := json_dumps;
     json_load := json_loads |}.

(** A linter process that prints [out] whatever the file holds and exits
    with [status]. *)
Definition prints (status : Z) (out : str) : option str -> result CompletedProcess :=
  fun _ => Return {| returncode := status; stdout := out; stderr := [] |}.

(** A linter that rates a file by a table from file text to the rating it
    prints, [0.00] for a text that is not in the table. *)
Fixpoint rating_of (table : list (str * str)) (code : str) : str :=
  match table with
  | [] => lit "0.00"
  | (c, r) :: table' => if str_eqb c code then r else rating_of table' code
  end.

Definition rates (table : list (str * str)) : option str -> result CompletedProcess :=
  fun file =>
    match file with
    | Some code =>
        Return {| returncode := 16;
                  stdout := lit "************* Module tmp" ++ [nl] ++ [nl]
                            ++ lit "Your code has been rated at "
                            ++ rating_of table code ++ lit "/10" ++ [nl] ++ [nl];
                  stderr := [] |}
    | None => Return {| returncode := 1; stdout := []; stderr := [] |}
    end.

(** A linter that cannot be started. *)
Definition not_installed : option str -> result CompletedProcess :=
  fun _ => Raise (OSError (lit "No such file or directory: 'pylint'")).

(** ** The encoding of files *)

(** A surrogate code point. A Python [str] can hold one on its own, where
    it stands for no character, and UTF-8 has no bytes for it. *)
Definition is_surrogate (c : char) : bool := (0xD800 <=? c) && (c <=? 0xDFFF).

(** [s.encode('utf-8')] does not raise. *)
Definition utf8 (s : str) : bool := forallb (fun c => negb (is_surrogate c)) s.

(** The pieces [json.dump(rankings, f, ensure_ascii=False, indent=4)]
    hands to [f.write] one after the other (the encoder's [iterencode]):
    for each pair the separator with the line break and the indentation,
    the key, the colon and the number. *)
Fixpoint pair_chunks (first : bool) (d : rankings_t) : list str :=
  match d with
  | [] => []
  | (k, v) :: d' =>
      ((if first then [] else lit ",") ++ [nl] ++ indent4)
      :: encode_str k :: lit ": " :: floatstr v :: pair_chunks false d'
  end.

Definition iterencode (d : rankings_t) : list str :=
  match d with
  | [] => [lit "{}"]
  | _ => lit "{" :: pair_chunks true d ++ [[nl]; lit "}"]
  end.

(** [for chunk in chunks: f.write(chunk)] on a file opened with
    [encoding='utf-8'], after [written]: a piece is encoded as a whole
    when it is written, so a piece that UTF-8 cannot encode raises
    [UnicodeEncodeError] and leaves the pieces before it in the file. *)
Fixpoint write_chunks (chunks : list str) (written : str) : result unit * str :=
  match chunks with
  | [] => (Return tt, written)
  | chunk :: chunks' =>
      if utf8 chunk then write_chunks chunks' (written ++ chunk)
      else (Raise UnicodeEncodeError, written)
  end.

Module Codec.

(** [tempfile.NamedTemporaryFile(delete=False, suffix=".py", mode='w')]:
    an empty file under a name no file has. *)
Definition create_temp : M N :=
  fun w =>
    let temp_path := fresh (temp_files w) in
    (Return temp_path,
     emit (TempCreated temp_path)
       {| ranking_file := ranking_file w;
          temp_files := (temp_path, []) :: temp_files w;
          log := log w |}).

(** [temp.write(code)]. No encoding is given for the temporary file, so
    it is the locale's; [enc] tells which texts that encoding can encode.
    A text it cannot encode raises before anything is written. *)
Definition temp_write (enc : str -> bool) (temp_path : N) (code : str) : M unit :=
  fun w =>
    if enc code then
      (Return tt,
       {| ranking_file := ranking_file w;
          temp_files := (temp_path, code) :: unlink temp_path (temp_files w);
          log := log w |})
    else (Raise UnicodeEncodeError, w).

(** [with tempfile.NamedTemporaryFile(delete=False, suffix=".py", mode='w')
    as temp: temp.write(code); temp_path = temp.name]. Leaving the block,
    by its end or by an exception, closes the file and keeps it
    ([delete=False]). *)
Definition NamedTemporaryFile (enc : str -> bool) (code : str) : M N :=
  temp <- create_temp ;;
  temp_write enc temp code ;;
  ret temp.

(** The [with] block stands before the [try]: an exception of
    [temp.write] leaves the function past the [except] and the
    [finally]. *)
Definition get_pylint_score (enc : str -> bool) (rt : runtime) (code : str)
  : M float :=
  temp_path <- NamedTemporaryFile enc code ;;
  try_finally
    (try_except
       (result <- subprocess_run rt temp_path ;;
        lift (scan_lines rt (split nl (stdout result))))
       (fun e => show (st_error_pylint e) ;; ret f0))
    (os_remove temp_path).

(** [with open(RANKING_FILE, 'w', encoding='utf-8') as f: json.dump(...)]:
    opening the file empties it, the pieces are written in turn, and the
    file is closed with what was written, whether [json.dump] returned or
    raised. *)
Definition save_rankings (rankings : rankings_t) : M unit :=
  fun w =>
    let '(r, text) := write_chunks (iterencode rankings) [] in
    (r,
     emit (RankingWritten text)
       {| ranking_file := Some text;
          temp_files := temp_files w;
          log := log w |}).

End Codec.

(** ** What a run is observed by *)

(** The score [get_pylint_score] comes to for a code text: what the linter
    printed as the rating, or [0.0]. *)
Definition rate (rt : runtime) (code : str) : float :=
  match pylint rt (Some code) with
  | Return cp =>
      match scan_lines rt (split nl (stdout cp)) with
      | Return x => x
      | Raise _ => f0
      end
  | Raise _ => f0
  end.

(** The error banner of a call of [get_pylint_score], if it shows one. *)
Definition banner (rt : runtime) (code : str) : list event :=
  match pylint rt (Some code) with
  | Return cp =>
      match scan_lines rt (split nl (stdout cp)) with
      | Return _ => []
      | Raise e => [Show (st_error_pylint e)]
      end
  | Raise e => [Show (st_error_pylint e)]
  end.

(** The first line that starts with the rating prefix. *)
Definition first_rated (lines : list str) : option str :=
  find (fun line => startswith line rating_prefix) lines.

(** A developer submitted: the code text is not empty after [strip]. *)
Definition submitted (code : str) : bool := truthy (strip code).

(** The guard of the battle: neither side submitted. *)
Definition no_code (s : session) : bool :=
  negb (submitted (code_a s)) && negb (submitted (code_b s)).

(** The two developers change places. *)
Definition swap (s : session) : session :=
  {| dev_a := dev_b s; dev_b := dev_a s;
     code_a := code_b s; code_b := code_a s;
     button := button s |}.

(** The messages that report how a battle went. *)
Definition is_verdict (e : event) : bool :=
  match e with
  | Show (st_success_winner _) | Show (st_success_auto _)
  | Show st_info_tie | Show st_warning_no_code => true
  | _ => false
  end.

Definition verdicts (l : list event) : list event := filter is_verdict l.

(** The events of scoring: a temporary file, a linter run. *)
Definition is_scoring (e : event) : bool :=
  match e with
  | TempCreated _ | PylintRun _ | TempRemoved _ => true
  | _ => false
  end.

Definition is_write (e : event) : bool :=
  match e with
  | RankingWritten _ => true
  | _ => false
  end.

(** The world with [evs] added to the log. *)
Definition with_log (w : world) (evs : list event) : world :=
  {| ranking_file := ranking_file w;
     temp_files := temp_files w;
     log := log w ++ evs |}.

(** The world with [text] in the ranking file and [evs] added to the log. *)
Definition with_ranking (w : world) (text : str) (evs : list event) : world :=
  {| ranking_file := Some text;
     temp_files := temp_files w;
     log := log w ++ evs |}.

(** An empty directory, nothing shown yet. *)
Definition world0 (file : option str) : world :=
  {| ranking_file := file; temp_files := []; log := [] |}.

(** ** The events of a run *)

(** What one call of [get_pylint_score] shows and does, in order. *)
Definition scoring_events (rt : runtime) (code : str) (files : list (N * str))
  : list event :=
  [TempCreated (fresh files); PylintRun (fresh files)]
  ++ banner rt code ++ [TempRemoved (fresh files)].

Definition side_score (rt : runtime) (code : str) : option float :=
  if submitted code then Some (rate rt code) else None.

Definition side_rankings (rt : runtime) (dev code : str) (r : rankings_t)
  : rankings_t :=
  if submitted code then update_rankings r dev (rate rt code) else r.

Definition side_events (rt : runtime) (dev code : str) (files : list (N * str))
  : list event :=
  if submitted code then
    scoring_events rt code files ++ [Show (st_subheader_score dev (rate rt code))]
  else [Show (st_subheader_missing dev)].

(** The dictionary a battle that is not turned away saves. *)
Definition final_rankings (rt : runtime) (s : session) (r : rankings_t)
  : rankings_t :=
  side_rankings rt (dev_b s) (code_b s) (side_rankings rt (dev_a s) (code_a s) r).

Definition winner_events (rt : runtime) (s : session) : list event :=
  match winner_message (dev_a s) (dev_b s)
          (side_score rt (code_a s)) (side_score rt (code_b s)) with
  | Some u => [Show u]
  | None => []
  end.

Fixpoint rank_events (idx : N) (rows : list (str * float)) : list event :=
  match rows with
  | [] => []
  | (dev, score) :: rows' =>
      Show (st_write_rank idx dev score) :: rank_events (N.succ idx) rows'
  end.

Definition display_events (r : rankings_t) : list event :=
  match r with
  | [] => [Show st_info_no_rankings]
  | _ => Show st_markdown_rule :: Show st_header_rankings
         :: rank_events 1 (sorted_desc r)
  end.

Definition battle_events (rt : runtime) (s : session) (r : rankings_t)
  (files : list (N * str)) : list event :=
  [Show st_markdown_rule; Show st_header_result]
  ++ side_events rt (dev_a s) (code_a s) files
  ++ side_events rt (dev_b s) (code_b s) files
  ++ winner_events rt s
  ++ [RankingWritten (json_dump rt (final_rankings rt s r));
      Show st_markdown_review_title]
  ++ display_events (final_rankings rt s r).

Definition widget_events (s : session) : list event :=
  [Show (st_text_input (lit "dev_a")); Show (st_text_input (lit "dev_b"));
   Show (st_header_code (dev_a s)); Show (st_text_area (lit "code_a"));
   Show (st_header_code (dev_b s)); Show (st_text_area (lit "code_b"));
   Show st_button].

(** The ranking file can be read: there is none, or it decodes. *)
Definition loads (rt : runtime) (w : world) (r : rankings_t) : Prop :=
  match ranking_file w with
  | Some text => json_load rt text = Some r
  | None => r = []
  end.

Definition read_events (w : world) : list event :=
  match ranking_file w with
  | Some _ => [RankingRead]
  | None => []
  end.

Definition page_events (s : session) (w : world) : list event :=
  [Show st_title; Show st_markdown_intro] ++ read_events w ++ widget_events s.

(** The events a run adds to the log. *)
Definition events_of {A} (m : M A) (w : world) : list event :=
  skipn (List.length (log w)) (log (snd (m w))).

(** ** Examples *)

Definition f5 : float := float_of_Z 5.

Definition dev_A : str := lit "Developer A".
Definition dev_B : str := lit "Developer B".

(** A linter that rates [print('x')] at 5.00, [import os] at -5.00 (as
    pylint did for code with many errors before it floored the rating at
    zero) and [x = 1] at 7.50. *)
Definition example_linter : option str -> result CompletedProcess :=
  rates [(lit "print('x')", lit "5.00");
         (lit "import os", lit "-5.00");
         (lit "x = 1", lit "7.50")].

Definition example_rt : runtime := py_runtime example_linter.

(** Developer A submits [print('x')], developer B nothing. *)
Definition only_a : session :=
  {| dev_a := dev_A; dev_b := dev_B;
     code_a := lit "print('x')"; code_b := lit "  ";
     button := true |}.

(** Both submit; A's code is rated 5.00 and B's 7.50. *)
Definition both : session :=
  {| dev_a := dev_A; dev_b := dev_B;
     code_a := lit "print('x')"; code_b := lit "x = 1";
     button := true |}.

Definition f7_5 : float := decimal_to_float false 75 (-1).

(** Neither submits. *)
Definition neither : session :=
  {| dev_a := dev_A; dev_b := dev_B;
     code_a := []; code_b := [10; 32];
     button := true |}.

(** ** The text of a ranking file *)

(** A character that cannot go on a number: none of the digits, the
    point, [e], [E], [+] and [-]. *)
Definition ends_number (c : char) : bool :=
  negb (is_digit c || (c =? 46) || (c =? 101) || (c =? 69) || (c =? 43) || (c =? 45)).

(** A piece of a number is taken the same way when the text goes on with
    a character that ends a number. *)
Definition stable (f : str -> str * str) : Prop :=
  forall (s : str) (c : char) (r : str),
    ends_number c = true ->
    f (s ++ c :: r) = (fst (f s), snd (f s) ++ c :: r).

(** The text of the pairs of an object from the first key on, up to the
    closing brace. *)
Fixpoint pairs_text (kv : str * float) (rest : rankings_t) : str :=
  encode_str (fst kv) ++ lit ": " ++ floatstr (snd kv)
  ++ match rest with
     | [] => [nl] ++ lit "}"
     | kv' :: rest' => lit "," ++ [nl] ++ indent4 ++ pairs_text kv' rest'
     end.

(** A score that the file can hold: written as a JSON number, it is read
    back as the same float. *)
Definition number_ok (v : float) : Prop := scan_number (floatstr v) = Some (v, []).

Definition set_pair (acc : rankings_t) (kv : str * float) : rankings_t :=
  dict_set (fst kv) (snd kv) acc.


Definition float_eqb (x y : float) : bool :=
  match x, y with
  | S754_zero a, S754_zero b => Bool.eqb a b
  | S754_infinity a, S754_infinity b => Bool.eqb a b
  | S754_nan, S754_nan => true
  | S754_finite a m e, S754_finite b m' e' => Bool.eqb a b && Pos.eqb m m' && Z.eqb e e'
  | _, _ => false
  end.

(** [number_ok], decided. *)
Definition number_okb (v : float) : bool :=
  match scan_number (floatstr v) with
  | Some (x, []) => float_eqb x v
  | _ => false
  end.

(** The ratings pylint prints, from 0.00 to 10.00 by hundredths. *)
Definition rating (n : nat) : float := decimal_to_float false (Z.of_nat n) (-2).

(** ** More of what a run is observed by *)




Definition is_run (e : event) : bool :=
  match e with
  | PylintRun _ => true
  | _ => false
  end.

(** The linter was started. *)
Definition started (evs : list event) : bool := existsb is_run evs.

(** A code text that is one lone surrogate, ["\ud800"]. *)
Definition lone : str := [0xD800].



(** A run of the script in which the button is not pressed. *)
Definition idle : session :=
  {| dev_a := dev_A; dev_b := dev_B;
     code_a := lit "print('x')"; code_b := lit "x = 1";
     button := false |}.

(** The entry [x] is not below the entry [y]: its score is not less. *)
Definition not_below (x y : str * float) : Prop := flt (snd x) (snd y) = false.

(** No score of the table is NaN. *)
Definition no_nan (r : rankings_t) : Prop := Forall (fun kv => snd kv <> S754_nan) r.

(** The rows of a leaderboard, numbered from 1. *)
Definition numbered (rows : list (str * float)) : list event :=
  List.map (fun ir => Show (st_write_rank (N.of_nat (fst ir)) (fst (snd ir)) (snd (snd ir))))
           (combine (seq 1 (List.length rows)) rows).

(** The entries whose score equals [v]. *)
Definition tied (v : float) (rows : list (str * float)) : list (str * float) :=
  filter (fun kv => feq (snd kv) v) rows.

(** A table with two developers at 7.5 and one at 10.0 between them. *)
Definition tie_table : rankings_t :=
  [(dev_A, f7_5); (lit "Developer C", f10); (dev_B, f7_5)].



(** * Properties *)

(** ** Strings and dictionaries *)

Lemma str_eqb_refl (a : str) : str_eqb a a = true.
Proof.
  induction a as [|x a IH]; simpl; [reflexivity|].
  now rewrite N.eqb_refl, IH.
Qed.

Lemma str_eqb_eq (a b : str) : str_eqb a b = true <-> a = b.
Proof.
  split; [|intros ->; apply str_eqb_refl].
  revert b; induction a as [|x a IH]; intros [|y b]; simpl; try discriminate; auto.
  intros H. apply andb_true_iff in H as [Hx Hab].
  apply N.eqb_eq in Hx. f_equal; auto.
Qed.

Lemma str_eqb_neq (a b : str) : str_eqb a b = false <-> a <> b.
Proof.
  split.
  - intros H E. apply str_eqb_eq in E. congruence.
  - intros H. destruct (str_eqb a b) eqn:E; [|reflexivity].
    apply str_eqb_eq in E. contradiction.
Qed.

Lemma dict_get_set_same (k : str) (v : float) (d : rankings_t) :
  dict_get k (dict_set k v d) = Some v.
Proof.
  induction d as [|[k' v'] d IH]; simpl.
  - now rewrite str_eqb_refl.
  - destruct (str_eqb k' k) eqn:E; simpl; rewrite E; auto.
Qed.

Lemma dict_get_set_other (k k' : str) (v : float) (d : rankings_t) :
  k' <> k -> dict_get k' (dict_set k v d) = dict_get k' d.
Proof.
  intros Hne. induction d as [|[k0 v0] d IH]; simpl.
  - assert (str_eqb k k' = false) as -> by (apply str_eqb_neq; congruence).
    reflexivity.
  - destruct (str_eqb k0 k) eqn:E; simpl.
    + apply str_eqb_eq in E. subst k0.
      assert (str_eqb k k' = false) as -> by (apply str_eqb_neq; congruence).
      reflexivity.
    + destruct (str_eqb k0 k'); auto.
Qed.

Lemma keys_dict_set_in (k : str) (v : float) (d : rankings_t) :
  In k (keys d) -> keys (dict_set k v d) = keys d.
Proof.
  induction d as [|[k' v'] d IH]; simpl; [contradiction|].
  intros [Heq|Hin].
  - subst k'. now rewrite str_eqb_refl.
  - destruct (str_eqb k' k); simpl; [reflexivity|]. f_equal. auto.
Qed.

Lemma dict_set_fresh (k : str) (v : float) (d : rankings_t) :
  ~ In k (keys d) -> dict_set k v d = d ++ [(k, v)].
Proof.
  induction d as [|[k' v'] d IH]; simpl; [reflexivity|].
  intros Hn. destruct (str_eqb k' k) eqn:E.
  - apply str_eqb_eq in E. subst. exfalso. auto.
  - f_equal. auto.
Qed.

(** Assignment keeps the keys of a dictionary distinct. *)
Lemma dict_set_NoDup (k : str) (v : float) (d : rankings_t) :
  NoDup (keys d) -> NoDup (keys (dict_set k v d)).
Proof.
  intros Hnd.
  destruct (in_dec (list_eq_dec N.eq_dec) k (keys d)) as [Hin|Hout].
  - now rewrite keys_dict_set_in.
  - rewrite dict_set_fresh by exact Hout. unfold keys in *.
    rewrite map_app. cbn [List.map fst].
    apply NoDup_rev in Hnd. rewrite <- (rev_involutive (List.map fst d ++ [k])).
    apply NoDup_rev. rewrite rev_app_distr. cbn [rev app].
    constructor; [|exact Hnd]. now rewrite <- in_rev.
Qed.

Lemma update_rankings_NoDup (r : rankings_t) (dev : str) (score : float) :
  NoDup (keys r) -> NoDup (keys (update_rankings r dev score)).
Proof. apply dict_set_NoDup. Qed.

Lemma split_not_nil (sep : char) (s : str) : split sep s <> [].
Proof.
  induction s as [|c s IH]; simpl; [discriminate|].
  destruct (c =? sep); [discriminate|].
  destruct (split sep s); [contradiction|discriminate].
Qed.

(** [x.split(sep)[0]] never raises. *)
Lemma getitem_split_0 (sep : char) (s : str) :
  exists tok, getitem (split sep s) 0 = Return tok.
Proof.
  unfold getitem. destruct (split sep s) eqn:E; simpl.
  - now apply split_not_nil in E.
  - eauto.
Qed.

(** ** Temporary files *)

Lemma lookup_bound (files : list (N * str)) (p : N) :
  fold_right (fun f acc => N.max (fst f) acc) 0 files < p ->
  lookup p files = None /\ unlink p files = files.
Proof.
  induction files as [|[q text] files IH]; simpl; intros Hlt; [auto|].
  assert (q < p) by lia.
  assert ((q =? p) = false) as -> by (apply N.eqb_neq; lia).
  destruct IH as [IH1 IH2]; [lia|].
  split; [assumption|now rewrite IH2].
Qed.

Lemma lookup_fresh (files : list (N * str)) : lookup (fresh files) files = None.
Proof. apply lookup_bound. unfold fresh. lia. Qed.

Lemma unlink_fresh (files : list (N * str)) : unlink (fresh files) files = files.
Proof. apply lookup_bound. unfold fresh. lia. Qed.

(** ** The score extractor, run *)

(** A call returns the rating, leaves the files as they were and adds its
    events to the log. *)
Lemma get_pylint_score_run (rt : runtime) (code : str) (w : world) :
  get_pylint_score rt code w
  = (Return (rate rt code), with_log w (scoring_events rt code (temp_files w))).
Proof.
  unfold get_pylint_score, bind, NamedTemporaryFile, try_finally, try_except,
    subprocess_run, os_remove, lift, show, ret, rate, scoring_events, banner,
    with_log, emit.
  cbn [temp_files ranking_file log lookup].
  rewrite N.eqb_refl.
  destruct (pylint rt (Some code)) as [cp|e].
  - destruct (scan_lines rt (split nl (stdout cp))) as [x|e];
      cbn [temp_files ranking_file log lookup unlink fst snd];
      rewrite ?N.eqb_refl, unlink_fresh, <- ?app_assoc; reflexivity.
  - cbn [temp_files ranking_file log lookup unlink fst snd].
    rewrite ?N.eqb_refl, unlink_fresh, <- ?app_assoc. reflexivity.
Qed.

(** ** The battle, run *)

Section Run.

Variable rt : runtime.

Lemma bind_run {A B} (m : M A) (k : A -> M B) (w w' : world) (a : A) :
  m w = (Return a, w') -> bind m k w = k a w'.
Proof. unfold bind. now intros ->. Qed.

Lemma bind_raise {A B} (m : M A) (k : A -> M B) (w w' : world) (e : exn) :
  m w = (Raise e, w') -> bind m k w = (Raise e, w').
Proof. unfold bind. now intros ->. Qed.

(** One step of a run: [m] returns, the rest goes on from its world. *)
Ltac run lem := erewrite bind_run by apply lem.

Lemma show_run (u : ui) (w : world) : show u w = (Return tt, with_log w [Show u]).
Proof. reflexivity. Qed.

Lemma with_log_nil (w : world) : with_log w [] = w.
Proof. destruct w. unfold with_log. cbn. now rewrite app_nil_r. Qed.

Lemma with_log_app (w : world) (a b : list event) :
  with_log (with_log w a) b = with_log w (a ++ b).
Proof. unfold with_log. cbn. now rewrite app_assoc. Qed.

Lemma with_ranking_app (w : world) (t : str) (a b : list event) :
  with_log (with_ranking w t a) b = with_ranking w t (a ++ b).
Proof. unfold with_log, with_ranking. cbn. now rewrite app_assoc. Qed.

Lemma save_rankings_run (r : rankings_t) (w : world) (a : list event) :
  save_rankings rt r (with_log w a)
  = (Return tt, with_ranking w (json_dump rt r) (a ++ [RankingWritten (json_dump rt r)])).
Proof. unfold save_rankings, emit, with_log, with_ranking. cbn. now rewrite app_assoc. Qed.

Lemma score_side_run (dev code : str) (r : rankings_t) (w : world) :
  score_side rt dev code r w
  = (Return (side_score rt code, side_rankings rt dev code r),
     with_log w (side_events rt dev code (temp_files w))).
Proof.
  unfold score_side, side_score, side_rankings, side_events, submitted.
  destruct (truthy (strip code)).
  - run get_pylint_score_run.
    run show_run.
    unfold ret. now rewrite with_log_app.
  - run show_run. reflexivity.
Qed.

Lemma score_sides_run (s : session) (r : rankings_t) (w : world) :
  score_sides rt s r w
  = (Return (side_score rt (code_a s), side_score rt (code_b s), final_rankings rt s r),
     with_log w (side_events rt (dev_a s) (code_a s) (temp_files w)
                 ++ side_events rt (dev_b s) (code_b s) (temp_files w))).
Proof.
  unfold score_sides.
  run score_side_run. cbv beta iota.
  run score_side_run. cbv beta iota.
  unfold ret, final_rankings. now rewrite with_log_app.
Qed.

Lemma write_ranks_run (rows : list (str * float)) (idx : N) (w : world) :
  write_ranks idx rows w = (Return tt, with_log w (rank_events idx rows)).
Proof.
  revert idx w. induction rows as [|[dev score] rows IH]; intros idx w; simpl.
  - unfold ret. now rewrite with_log_nil.
  - run show_run.
    rewrite IH, with_log_app. reflexivity.
Qed.

Lemma display_rankings_run (r : rankings_t) (w : world) :
  display_rankings r w = (Return tt, with_log w (display_events r)).
Proof.
  unfold display_rankings, display_events. destruct r as [|kv r]; simpl.
  - apply show_run.
  - run show_run.
    run show_run.
    rewrite write_ranks_run, !with_log_app. reflexivity.
Qed.

Lemma show_winner_run (s : session) (w : world) :
  show_winner (dev_a s) (dev_b s) (side_score rt (code_a s)) (side_score rt (code_b s)) w
  = (Return tt, with_log w (winner_events rt s)).
Proof.
  unfold show_winner, winner_events.
  destruct (winner_message _ _ _ _).
  - apply show_run.
  - unfold ret. now rewrite with_log_nil.
Qed.

(** A battle with no code on either side warns and stops; any other battle
    scores, reports, saves and shows the leaderboard. *)
Lemma battle_run (s : session) (r : rankings_t) (w : world) :
  battle rt s r w
  = if no_code s then (Return r, with_log w [Show st_warning_no_code])
    else (Return (final_rankings rt s r),
          with_ranking w (json_dump rt (final_rankings rt s r))
            (battle_events rt s r (temp_files w))).
Proof.
  unfold battle, no_code, submitted.
  destruct (negb (truthy (strip (code_a s))) && negb (truthy (strip (code_b s)))).
  - run show_run. reflexivity.
  - run show_run.
    run show_run.
    run score_sides_run.
    cbv beta iota.
    run show_winner_run.
    rewrite !with_log_app.
    run save_rankings_run.
    run show_run.
    unfold show_review. cbn [truthy].
    erewrite bind_run by reflexivity.
    erewrite bind_run by reflexivity.
    run display_rankings_run.
    unfold ret, battle_events. rewrite !with_ranking_app.
    cbn [temp_files with_log]. repeat (rewrite <- ?app_assoc; cbn [app]).
    reflexivity.
Qed.

Lemma load_rankings_run (w : world) (r : rankings_t) (a : list event) :
  loads rt w r ->
  load_rankings rt (with_log w a) = (Return r, with_log w (a ++ read_events w)).
Proof.
  unfold loads, load_rankings, read_events, emit, with_log. cbn.
  destruct (ranking_file w) as [text|].
  - intros ->. now rewrite app_assoc.
  - intros ->. now rewrite app_nil_r.
Qed.

Lemma load_rankings_raise (w : world) (text : str) (a : list event) :
  ranking_file w = Some text -> json_load rt text = None ->
  load_rankings rt (with_log w a) = (Raise JSONDecodeError, with_log w (a ++ [RankingRead])).
Proof.
  unfold load_rankings, emit, with_log. cbn. intros -> ->. now rewrite app_assoc.
Qed.

Lemma page_run (s : session) (w : world) (r : rankings_t) :
  loads rt w r ->
  page rt s w = (Return r, with_log w (page_events s w)).
Proof.
  intros Hl. unfold page.
  run show_run.
  run show_run.
  rewrite with_log_app.
  erewrite bind_run by (apply load_rankings_run; exact Hl).
  repeat (run show_run; rewrite with_log_app).
  unfold ret, page_events, widget_events.
  repeat (rewrite <- ?app_assoc; cbn [app]). reflexivity.
Qed.

(** A ranking file that does not decode stops the page before the button. *)
Lemma page_raise (s : session) (w : world) (text : str) :
  ranking_file w = Some text -> json_load rt text = None ->
  page rt s w
  = (Raise JSONDecodeError,
     with_log w [Show st_title; Show st_markdown_intro; RankingRead]).
Proof.
  intros Hf Hl. unfold page.
  run show_run.
  run show_run.
  rewrite with_log_app.
  erewrite bind_raise by (eapply load_rankings_raise; eassumption).
  reflexivity.
Qed.

(** One run of the script with a ranking file that can be read. *)
Lemma main_run (s : session) (w : world) (r : rankings_t) :
  loads rt w r ->
  main rt s w
  = (Return tt,
     if button s then
       if no_code s then with_log w (page_events s w ++ [Show st_warning_no_code])
       else with_ranking w (json_dump rt (final_rankings rt s r))
              (page_events s w ++ battle_events rt s r (temp_files w))
     else with_log w (page_events s w)).
Proof.
  intros Hl. unfold main.
  erewrite bind_run by (apply page_run; exact Hl).
  destruct (button s); [|reflexivity].
  unfold bind. rewrite battle_run.
  destruct (no_code s).
  - now rewrite with_log_app.
  - unfold ret, with_ranking, with_log. cbn [ranking_file temp_files log].
    now rewrite app_assoc.
Qed.

Lemma main_raise (s : session) (w : world) (text : str) :
  ranking_file w = Some text -> json_load rt text = None ->
  main rt s w
  = (Raise JSONDecodeError,
     with_log w [Show st_title; Show st_markdown_intro; RankingRead]).
Proof.
  intros Hf Hl. unfold main.
  erewrite bind_raise by (eapply page_raise; eassumption). reflexivity.
Qed.

End Run.

(** ** Comparing floats *)

Lemma SFcompare_antisym (x y : float) :
  SFcompare y x = option_map CompOpp (SFcompare x y).
Proof.
  destruct x as [sx|sx| |sx mx ex], y as [sy|sy| |sy my ey]; simpl;
    try reflexivity;
    try (destruct sx; reflexivity); try (destruct sy; reflexivity);
    try (destruct sx, sy; reflexivity).
  assert (Hm : Pos.compare_cont Eq my mx = CompOpp (Pos.compare_cont Eq mx my))
    by (symmetry; apply (Pos.compare_cont_antisym mx my Eq)).
  destruct sx, sy; simpl; try reflexivity;
    rewrite (Z.compare_antisym ex ey); destruct (ex ?= ey)%Z; simpl;
    try reflexivity;
    rewrite Hm; destruct (Pos.compare_cont Eq mx my); reflexivity.
Qed.

(** [a > b] excludes [b > a]. *)
Lemma fgt_asym (a b : float) : fgt a b = true -> fgt b a = false.
Proof.
  unfold fgt, SFltb. rewrite (SFcompare_antisym a b).
  destruct (SFcompare a b) as [[| |]|]; simpl; congruence.
Qed.


(** ** The verdict *)

Lemma skipn_app_length {A} (a b : list A) : skipn (List.length a) (a ++ b) = b.
Proof. induction a; simpl; auto. Qed.

Lemma events_of_main (rt : runtime) (s : session) (w : world) (r : rankings_t) :
  loads rt w r ->
  events_of (main rt s) w
  = page_events s w
    ++ (if button s then
          if no_code s then [Show st_warning_no_code]
          else battle_events rt s r (temp_files w)
        else []).
Proof.
  intros Hl. unfold events_of. rewrite (main_run rt s w r Hl).
  destruct (button s); [destruct (no_code s)|]; cbn [snd log with_log with_ranking];
    rewrite skipn_app_length, ?app_nil_r; reflexivity.
Qed.

Lemma verdicts_app (a b : list event) : verdicts (a ++ b) = verdicts a ++ verdicts b.
Proof. apply filter_app. Qed.

Lemma verdicts_page (s : session) (w : world) : verdicts (page_events s w) = [].
Proof. unfold page_events, read_events. now destruct (ranking_file w). Qed.

Lemma banner_cases (rt : runtime) (code : str) :
  banner rt code = [] \/ exists e, banner rt code = [Show (st_error_pylint e)].
Proof.
  unfold banner. destruct (pylint rt (Some code)) as [cp|e]; [|eauto].
  destruct (scan_lines rt _); eauto.
Qed.

Lemma verdicts_side (rt : runtime) (dev code : str) (files : list (N * str)) :
  verdicts (side_events rt dev code files) = [].
Proof.
  unfold side_events, scoring_events. destruct (submitted code); [|reflexivity].
  destruct (banner_cases rt code) as [->|[e ->]]; reflexivity.
Qed.

Lemma verdicts_ranks (rows : list (str * float)) (idx : N) :
  verdicts (rank_events idx rows) = [].
Proof.
  revert idx. induction rows as [|[dev score] rows IH]; intros idx; simpl; auto.
Qed.

Lemma verdicts_display (r : rankings_t) : verdicts (display_events r) = [].
Proof.
  destruct r; [reflexivity|]. unfold display_events.
  cbn [verdicts filter is_verdict]. apply verdicts_ranks.
Qed.

Lemma verdicts_winner (rt : runtime) (s : session) :
  verdicts (winner_events rt s) = winner_events rt s.
Proof.
  unfold winner_events, winner_message.
  destruct (side_score rt (code_a s)) as [a|], (side_score rt (code_b s)) as [b|];
    try reflexivity.
  destruct (fgt a b); [reflexivity|]. destruct (fgt b a); reflexivity.
Qed.

Lemma verdicts_battle (rt : runtime) (s : session) (r : rankings_t)
  (files : list (N * str)) :
  verdicts (battle_events rt s r files) = winner_events rt s.
Proof.
  unfold battle_events. rewrite !verdicts_app, !verdicts_side, verdicts_winner.
  cbn [app]. rewrite verdicts_display.
  cbn [verdicts filter is_verdict app]. now rewrite app_nil_r.
Qed.

(** The verdict of a run whose ranking file can be read. *)
Lemma verdicts_main (rt : runtime) (s : session) (w : world) (r : rankings_t) :
  loads rt w r ->
  verdicts (events_of (main rt s) w)
  = if button s then
      if no_code s then [Show st_warning_no_code] else winner_events rt s
    else [].
Proof.
  intros Hl. rewrite (events_of_main rt s w r Hl), verdicts_app, verdicts_page.
  destruct (button s); [destruct (no_code s)|]; cbn [app]; auto using verdicts_battle.
Qed.

(** ** The score extractor: range, errors, the temporary file *)

(** What the loop over the lines comes to: [0.0] without a rated line,
    else what the first rated line gives. *)
Lemma scan_lines_first (rt : runtime) (lines : list str) :
  scan_lines rt lines
  = match first_rated lines with
    | None => Return f0
    | Some line =>
        rbind (getitem (split space line) 6) (fun score_str =>
        rbind (getitem (split slash score_str) 0) (fun numerator =>
        float_ rt numerator))
    end.
Proof.
  unfold first_rated. induction lines as [|line lines IH]; simpl; [reflexivity|].
  destruct (startswith line rating_prefix); auto.
Qed.







Lemma first_rated_None (lines : list str) :
  Forall (fun line => startswith line rating_prefix = false) lines ->
  first_rated lines = None.
Proof.
  unfold first_rated. induction 1 as [|line lines H _ IH]; simpl; [reflexivity|].
  now rewrite H.
Qed.

(** A code text the encoding of the temporary file can encode is
    written, and from there on the call is the call of the environment
    that behaves. *)
Lemma get_pylint_score_written (enc : str -> bool) (rt : runtime) (code : str)
  (w : world) :
  enc code = true ->
  Codec.get_pylint_score enc rt code w = get_pylint_score rt code w.
Proof.
  intros He.
  unfold Codec.get_pylint_score, get_pylint_score, Codec.NamedTemporaryFile,
    NamedTemporaryFile, Codec.create_temp, Codec.temp_write, bind, ret, emit.
  cbn [temp_files ranking_file log unlink fst snd].
  now rewrite He, N.eqb_refl, unlink_fresh.
Qed.

(** A code text it cannot encode stops the call at [temp.write]: the
    exception leaves the call, and the file that was created stays. *)
Lemma get_pylint_score_unwritten (enc : str -> bool) (rt : runtime) (code : str)
  (w : world) :
  enc code = false ->
  Codec.get_pylint_score enc rt code w
  = (Raise UnicodeEncodeError,
     {| ranking_file := ranking_file w;
        temp_files := (fresh (temp_files w), []) :: temp_files w;
        log := log w ++ [TempCreated (fresh (temp_files w))] |}).
Proof.
  intros He.
  unfold Codec.get_pylint_score, Codec.NamedTemporaryFile, Codec.create_temp,
    Codec.temp_write, bind, ret, emit.
  cbn [temp_files ranking_file log]. now rewrite He.
Qed.

(** The events of a call, by whether its code text could be written. *)
Lemma events_of_get_pylint_score (enc : str -> bool) (rt : runtime) (code : str)
  (w : world) :
  events_of (Codec.get_pylint_score enc rt code) w
  = if enc code then scoring_events rt code (temp_files w)
    else [TempCreated (fresh (temp_files w))].
Proof.
  unfold events_of. destruct (enc code) eqn:He.
  - rewrite get_pylint_score_written, get_pylint_score_run by exact He.
    cbn [snd log with_log]. apply skipn_app_length.
  - rewrite get_pylint_score_unwritten by exact He.
    cbn [snd log]. apply skipn_app_length.
Qed.

Lemma started_scoring (rt : runtime) (code : str) (files : list (N * str)) :
  started (scoring_events rt code files) = true.
Proof. reflexivity. Qed.

(** C6: in a call that gets to start the linter, the score extractor
    returns 0.0 when no line of the linter's output starts with the
    rating prefix and when starting the linter raises; an exception
    raised by the invocation or by the parsing is caught, shown as an
    error banner and gives 0.0. An exception that does leave a call is
    none of these: it was raised before the linter was started. *)
Theorem get_pylint_score_errors (enc : str -> bool) (rt : runtime) (code : str)
  (w : world) :
  let call := Codec.get_pylint_score enc rt code in
  (started (events_of call w) = true ->
   (forall cp,
      pylint rt (Some code) = Return cp ->
      Forall (fun line => startswith line rating_prefix = false)
             (split nl (stdout cp)) ->
      fst (call w) = Return f0) /\
   (forall e,
      pylint rt (Some code) = Raise e ->
      fst (call w) = Return f0 /\
      In (Show (st_error_pylint e)) (events_of call w)) /\
   (forall cp e,
      pylint rt (Some code) = Return cp ->
      scan_lines rt (split nl (stdout cp)) = Raise e ->
      fst (call w) = Return f0 /\
      In (Show (st_error_pylint e)) (events_of call w)) /\
   (exists x, fst (call w) = Return x)) /\
  (forall e, fst (call w) = Raise e -> started (events_of call w) = false).
Proof.
  intros call. subst call. rewrite events_of_get_pylint_score.
  destruct (enc code) eqn:He.
  - rewrite get_pylint_score_written, get_pylint_score_run by exact He.
    cbn [fst]. split; [|discriminate].
    intros _. unfold rate, scoring_events, banner.
    split; [|split; [|split]].
    + intros cp -> Hno. rewrite scan_lines_first, first_rated_None by exact Hno.
      reflexivity.
    + intros e ->. split; [reflexivity|]. cbn. auto.
    + intros cp e -> ->. split; [reflexivity|]. cbn. auto.
    + eauto.
  - split; [discriminate|reflexivity].
Qed.

(** C6 at a linter that is not installed, and at one whose rated line is
    cut short. *)
Lemma get_pylint_score_errors_witness :
  fst (Codec.get_pylint_score utf8 (py_runtime not_installed) (lit "x = 1")
         (world0 None))
  = Return f0
  /\ fst (Codec.get_pylint_score utf8
            (py_runtime (prints 0 (lit "Your code has been rated at")))
            (lit "x = 1") (world0 None))
     = Return f0.
Proof.
  split.
  - pose proof (get_pylint_score_errors utf8 (py_runtime not_installed)
                  (lit "x = 1") (world0 None)) as (H & _).
    destruct (H eq_refl) as (_ & H1 & _).
    exact (proj1 (H1 _ eq_refl)).
  - pose proof (get_pylint_score_errors utf8
                  (py_runtime (prints 0 (lit "Your code has been rated at")))
                  (lit "x = 1") (world0 None)) as (H & _).
    destruct (H eq_refl) as (_ & _ & H1 & _).
    exact (proj1 (H1 _ IndexError eq_refl eq_refl)).
Defined.

(** The exit status of the linter plays no part: a linter that exits with
    status 16 and prints a rating of 5.00 gives the score 5.0. *)
Lemma exit_status_ignored :
  pylint example_rt (Some (lit "print('x')"))
  = Return {| returncode := 16;
              stdout := lit "************* Module tmp" ++ [nl; nl]
                        ++ lit "Your code has been rated at 5.00/10" ++ [nl; nl];
              stderr := [] |}
  /\ fst (get_pylint_score example_rt (lit "print('x')") (world0 None)) = Return f5.
Proof. split; vm_compute; reflexivity. Qed.

(** C7 fails on one path: the [with] block that creates and writes the
    temporary file stands before the [try], so when [temp.write] raises
    the [finally] that removes the file is never entered. For a code text
    that is a lone surrogate, with UTF-8 as the encoding of the file, the
    call raises [UnicodeEncodeError], no linter is started, and the file
    the call created, empty, is still in the directory. *)
Theorem temp_file_left_behind :
  Codec.get_pylint_score utf8 example_rt lone (world0 None)
  = (Raise UnicodeEncodeError,
     {| ranking_file := None;
        temp_files := [(1, [])];
        log := [TempCreated 1] |}).
Proof. vm_compute. reflexivity. Qed.

(** ** Rankings and the battle *)

(** The score a call returns is [rate], in any world. *)
Lemma get_pylint_score_rate (rt : runtime) (code : str) (w : world) :
  fst (get_pylint_score rt code w) = Return (rate rt code).
Proof. now rewrite get_pylint_score_run. Qed.

Lemma submitted_false (code : str) : submitted code = false <-> strip code = [].
Proof.
  unfold submitted. destruct (strip code); simpl; split; congruence.
Qed.



(** One battle, event by event: developer A submits [print('x')], rated
    5.00, developer B submits blanks, and there is no ranking file yet. *)
Example main_only_a_log :
  main example_rt only_a (world0 None)
  = (Return tt,
     {| ranking_file := Some (json_dumps [(dev_A, f5)]);
        temp_files := [];
        log :=
          [Show st_title; Show st_markdown_intro;
           Show (st_text_input (lit "dev_a")); Show (st_text_input (lit "dev_b"));
           Show (st_header_code dev_A); Show (st_text_area (lit "code_a"));
           Show (st_header_code dev_B); Show (st_text_area (lit "code_b"));
           Show st_button;
           Show st_markdown_rule; Show st_header_result;
           TempCreated 1; PylintRun 1; TempRemoved 1;
           Show (st_subheader_score dev_A f5);
           Show (st_subheader_missing dev_B);
           Show (st_success_auto dev_A);
           RankingWritten (json_dumps [(dev_A, f5)]);
           Show st_markdown_review_title;
           Show st_markdown_rule; Show st_header_rankings;
           Show (st_write_rank 1 dev_A f5)] |}).
Proof. vm_compute. reflexivity. Qed.

(** The text that battle leaves in the ranking file. *)
Example ranking_file_text :
  json_dumps [(dev_A, f5)]
  = lit "{" ++ [nl]
    ++ lit "    " ++ [quote] ++ lit "Developer A" ++ [quote] ++ lit ": 5.0" ++ [nl]
    ++ lit "}".
Proof. vm_compute. reflexivity. Qed.




Lemma winner_message_swap (da db : str) (sa sb : option float) :
  winner_message db da sb sa = winner_message da db sa sb.
Proof.
  destruct sa as [a|], sb as [b|]; simpl; try reflexivity.
  destruct (fgt a b) eqn:Eab, (fgt b a) eqn:Eba; try reflexivity.
  apply fgt_asym in Eab. congruence.
Qed.


Lemma filter_scoring_page (s : session) (w : world) :
  filter is_scoring (page_events s w) = [] /\ filter is_write (page_events s w) = [].
Proof. unfold page_events, read_events. destruct (ranking_file w); auto. Qed.



(** C4: in a battle in which both code texts are empty after trimming,
    the warning is shown and nothing else, no temporary file is made and
    no linter run, the dictionary [rankings] is left as loaded, and the
    ranking file is not written. *)
Theorem no_code_no_effect (rt : runtime) (s : session) (w : world)
  (r : rankings_t) :
  loads rt w r -> button s = true ->
  strip (code_a s) = [] -> strip (code_b s) = [] ->
  let evs := events_of (main rt s) w in
  let w' := snd (main rt s w) in
  evs = page_events s w ++ [Show st_warning_no_code] /\
  filter is_scoring evs = [] /\
  filter is_write evs = [] /\
  temp_files w' = temp_files w /\
  ranking_file w' = ranking_file w /\
  (forall w1, fst (battle rt s r w1) = Return r).
Proof.
  intros Hl Hb Ha Hc evs w'. subst evs w'.
  apply submitted_false in Ha, Hc.
  assert (Hn : no_code s = true) by (unfold no_code; now rewrite Ha, Hc).
  rewrite (events_of_main rt s w r Hl), (main_run rt s w r Hl), Hb, Hn.
  destruct (filter_scoring_page s w) as [F1 F2].
  rewrite !filter_app, F1, F2. repeat split.
  intros w1. now rewrite battle_run, Hn.
Qed.

Lemma no_code_no_effect_witness :
  events_of (main example_rt neither) (world0 None)
  = page_events neither (world0 None) ++ [Show st_warning_no_code]
  /\ ranking_file (snd (main example_rt neither (world0 None))) = None.
Proof.
  pose proof (no_code_no_effect example_rt neither (world0 None) []
                eq_refl eq_refl eq_refl eq_refl) as (H1 & _ & _ & _ & H2 & _).
  split; [exact H1|exact H2].
Defined.

Lemma no_code_swap (s : session) : no_code (swap s) = no_code s.
Proof. unfold no_code, swap. cbn. apply andb_comm. Qed.

Lemma winner_events_swap (rt : runtime) (s : session) :
  winner_events rt (swap s) = winner_events rt s.
Proof.
  unfold winner_events, swap. cbn [dev_a dev_b code_a code_b].
  now rewrite winner_message_swap.
Qed.

Lemma loads_or_not (rt : runtime) (w : world) :
  (exists r, loads rt w r) \/
  (exists text, ranking_file w = Some text /\ json_load rt text = None).
Proof.
  unfold loads. destruct (ranking_file w) as [text|]; [|left; eauto].
  destruct (json_load rt text) as [r|] eqn:E; [left|right]; eauto.
Qed.

(** C8: the verdict does not depend on the order of the two developers.
    With the developers swapped, the same name is reported as winner or
    automatic winner (so the other side of the page wins), a tie stays a
    tie and the warning for no submission stays the warning. *)
Theorem winner_order_independent (rt : runtime) (s : session) (w : world) :
  (forall score_a score_b,
     winner_message (dev_a (swap s)) (dev_b (swap s)) score_b score_a
     = winner_message (dev_a s) (dev_b s) score_a score_b) /\
  verdicts (events_of (main rt (swap s)) w) = verdicts (events_of (main rt s) w).
Proof.
  split.
  - intros. apply winner_message_swap.
  - destruct (loads_or_not rt w) as [[r Hl]|(text & Hf & Hn)].
    + rewrite !(verdicts_main rt _ w r Hl), no_code_swap, winner_events_swap.
      reflexivity.
    + unfold events_of. now rewrite !(main_raise rt _ w text Hf Hn).
Qed.










(** ** The ranking file, written and read back *)

Lemma span_app (p : char -> bool) (s : str) (c : char) (r : str) :
  p c = false ->
  span p (s ++ c :: r) = (fst (span p s), snd (span p s) ++ c :: r).
Proof.
  intros Hc. induction s as [|x s IH]; simpl.
  - now rewrite Hc.
  - destruct (p x); [|reflexivity].
    rewrite IH. now destruct (span p s).
Qed.

Lemma ends_number_spec (c : char) :
  ends_number c = true ->
  is_digit c = false /\ (c =? 46) = false /\ (c =? 101) = false /\
  (c =? 69) = false /\ (c =? 43) = false /\ (c =? 45) = false /\ (c =? 48) = false.
Proof.
  unfold ends_number. intros H.
  apply negb_true_iff in H.
  repeat (apply orb_false_iff in H as [H ?]).
  repeat split; try assumption.
  apply N.eqb_neq. intros ->. discriminate.
Qed.

Lemma stable_digits : stable (span is_digit).
Proof.
  intros s c r Hc. apply span_app. now apply ends_number_spec in Hc.
Qed.

Lemma stable_take_minus : stable take_minus.
Proof.
  intros s c r Hc. apply ends_number_spec in Hc as (_ & _ & _ & _ & _ & Hm & _).
  destruct s as [|x s]; simpl.
  - now rewrite Hm.
  - now destruct (x =? 45).
Qed.

Lemma stable_take_int : stable take_int.
Proof.
  intros s c r Hc. pose proof (stable_digits s c r Hc) as Hd.
  apply ends_number_spec in Hc as (Hdg & _ & _ & _ & _ & _ & Hz).
  destruct s as [|x s].
  - simpl. now rewrite Hz, Hdg.
  - cbn [app take_int]. destruct (x =? 48); [reflexivity|]. exact Hd.
Qed.

Lemma stable_take_frac : stable take_frac.
Proof.
  intros s c r Hc. pose proof (stable_digits (tl s) c r Hc) as Hd.
  apply ends_number_spec in Hc as (_ & Hp & _).
  destruct s as [|x s].
  - simpl. now rewrite Hp.
  - cbn [app take_frac tl] in *. destruct (x =? 46); [|reflexivity].
    rewrite Hd. destruct (span is_digit s) as [fd r0]. cbn [fst snd].
    now destruct (truthy fd).
Qed.

Lemma stable_take_plus_minus : stable take_plus_minus.
Proof.
  intros s c r Hc. apply ends_number_spec in Hc as (_ & _ & _ & _ & Hp & Hm & _).
  destruct s as [|x s]; simpl.
  - now rewrite Hp, Hm.
  - now destruct ((x =? 43) || (x =? 45)).
Qed.

Lemma stable_take_exp : stable take_exp.
Proof.
  intros s c r Hc.
  pose proof (stable_take_plus_minus (tl s) c r Hc) as Hs.
  pose proof (fun s' => stable_digits s' c r Hc) as Hd.
  apply ends_number_spec in Hc as (_ & _ & He & HE & _).
  destruct s as [|x s].
  - simpl. now rewrite He, HE.
  - cbn [app take_exp tl] in *. destruct ((x =? 101) || (x =? 69)); [|reflexivity].
    rewrite Hs. destruct (take_plus_minus s) as [sg s'']. cbn [fst snd].
    rewrite Hd. destruct (span is_digit s'') as [ed r0]. cbn [fst snd].
    now destruct (truthy ed).
Qed.

Lemma match_number_app (s : str) (c : char) (r : str) (i f e s4 : str) :
  ends_number c = true ->
  match_number s = Some (i, f, e, s4) ->
  match_number (s ++ c :: r) = Some (i, f, e, s4 ++ c :: r).
Proof.
  intros Hc. unfold match_number.
  rewrite (stable_take_minus s c r Hc).
  destruct (take_minus s) as [sign s1]. cbn [fst snd].
  rewrite (stable_take_int s1 c r Hc).
  destruct (take_int s1) as [ip s2]. cbn [fst snd].
  destruct (truthy ip); [|discriminate].
  rewrite (stable_take_frac s2 c r Hc).
  destruct (take_frac s2) as [frac s3]. cbn [fst snd].
  rewrite (stable_take_exp s3 c r Hc).
  destruct (take_exp s3) as [ex s4']. cbn [fst snd].
  intros H. inversion H. reflexivity.
Qed.

Lemma startswith_exact (t p : str) :
  startswith t p = true -> skipn (List.length p) t = [] -> t = p.
Proof.
  revert t. induction p as [|x p IH]; intros t; simpl.
  - intros _ H. exact H.
  - destruct t as [|y t]; [discriminate|].
    intros H Hs. apply andb_true_iff in H as [Hx Hp].
    apply N.eqb_eq in Hx. subst y. f_equal. auto.
Qed.

(** A number of the file is read the same way when a comma or a line
    break follows it. *)
Lemma scan_number_app (t : str) (v : float) (c : char) (r : str) :
  ends_number c = true ->
  scan_number t = Some (v, []) ->
  scan_number (t ++ c :: r) = Some (v, c :: r).
Proof.
  intros Hc. unfold scan_number.
  destruct (match_number t) as [[[[i f] e] s4]|] eqn:E.
  - rewrite (match_number_app t c r i f e s4 Hc E).
    destruct (truthy f || truthy e).
    + destruct (float_of_str (i ++ f ++ e)); simpl; [|discriminate].
      intros H. inversion H. reflexivity.
    + intros H. inversion H. reflexivity.
  - destruct (startswith t (lit "NaN")) eqn:E1.
    { intros H. inversion H as [[Hv Hs]].
      apply (startswith_exact t (lit "NaN") E1) in Hs. subst t. reflexivity. }
    destruct (startswith t (lit "Infinity")) eqn:E2.
    { intros H. inversion H as [[Hv Hs]].
      apply (startswith_exact t (lit "Infinity") E2) in Hs. subst t. reflexivity. }
    destruct (startswith t (lit "-Infinity")) eqn:E3; [|discriminate].
    intros H. inversion H as [[Hv Hs]].
    apply (startswith_exact t (lit "-Infinity") E3) in Hs. subst t. reflexivity.
Qed.

Lemma is_ws_cases (c : char) :
  is_ws c = true -> c = 32 \/ c = 9 \/ c = 10 \/ c = 13.
Proof.
  unfold is_ws. intros H.
  repeat (apply orb_true_iff in H as [H|H]); apply N.eqb_eq in H; auto.
Qed.

(** A number does not start with whitespace. *)
Lemma scan_number_head (t : str) (x : float * str) :
  scan_number t = Some x -> exists c t', t = c :: t' /\ is_ws c = false.
Proof.
  destruct t as [|c t']; [discriminate|].
  intros H. exists c, t'. split; [reflexivity|].
  destruct (is_ws c) eqn:E; [|reflexivity].
  apply is_ws_cases in E as [-> | [-> | [-> | ->]]]; discriminate.
Qed.

Lemma skip_ws_ws (c : char) (s : str) : is_ws c = true -> skip_ws (c :: s) = skip_ws s.
Proof.
  unfold skip_ws. simpl. intros ->. now destruct (span is_ws s).
Qed.

Lemma skip_ws_stop (c : char) (s : str) : is_ws c = false -> skip_ws (c :: s) = c :: s.
Proof. unfold skip_ws. simpl. now intros ->. Qed.

Lemma lt_32_cases (c : char) (P : char -> Prop) :
  c < 32 ->
  (forall n, In n [0; 1; 2; 3; 4; 5; 6; 7; 8; 9; 10; 11; 12; 13; 14; 15; 16; 17; 18;
                   19; 20; 21; 22; 23; 24; 25; 26; 27; 28; 29; 30; 31] -> P n) ->
  P c.
Proof.
  intros Hlt H. apply H.
  destruct c as [|p]; [simpl; auto|].
  do 5 (destruct p as [p|p|]; try (simpl; tauto)); lia.
Qed.

(** One character of a string, escaped, is read back as that character. *)
Lemma scanstring_escape_char (c : char) (fuel : nat) (tail : str) :
  scanstring (S fuel) (escape_char c ++ tail)
  = option_map (fun r => (c :: fst r, snd r)) (scanstring fuel tail).
Proof.
  destruct (c <? 32) eqn:Hlt.
  - apply N.ltb_lt in Hlt. revert fuel tail.
    apply (lt_32_cases c (fun c => forall fuel tail, _ = _) Hlt).
    intros n Hn fuel tail. simpl in Hn.
    repeat (destruct Hn as [<-|Hn]; [reflexivity|]). contradiction.
  - unfold escape_char. rewrite Hlt.
    destruct (c =? quote) eqn:Eq.
    { apply N.eqb_eq in Eq. subst c. reflexivity. }
    destruct (c =? backslash) eqn:Eb.
    { apply N.eqb_eq in Eb. subst c. reflexivity. }
    assert (Hge : 32 <= c) by (apply N.ltb_ge; exact Hlt).
    destruct (c =? 10) eqn:E1; [apply N.eqb_eq in E1; lia|].
    destruct (c =? 13) eqn:E2; [apply N.eqb_eq in E2; lia|].
    destruct (c =? 9) eqn:E3; [apply N.eqb_eq in E3; lia|].
    destruct (c =? 8) eqn:E4; [apply N.eqb_eq in E4; lia|].
    destruct (c =? 12) eqn:E5; [apply N.eqb_eq in E5; lia|].
    cbn [app scanstring]. now rewrite Eq, Eb, Hlt.
Qed.

Lemma scanstring_escape (k : str) (fuel : nat) (rest : str) :
  (List.length k < fuel)%nat ->
  scanstring fuel (flat_map escape_char k ++ quote :: rest) = Some (k, rest).
Proof.
  revert fuel. induction k as [|c k IH]; intros fuel Hf;
    (destruct fuel as [|fuel]; [inversion Hf|]).
  - reflexivity.
  - cbn [flat_map]. rewrite <- app_assoc, scanstring_escape_char.
    rewrite IH by (simpl in Hf; lia). reflexivity.
Qed.

Lemma escape_char_length (c : char) : (1 <= List.length (escape_char c))%nat.
Proof.
  unfold escape_char.
  repeat match goal with
         | |- context [if ?b then _ else _] => destruct b
         end; simpl; lia.
Qed.

Lemma escape_length (k : str) :
  (List.length k <= List.length (flat_map escape_char k))%nat.
Proof.
  induction k as [|c k IH]; simpl; [lia|].
  rewrite length_app. pose proof (escape_char_length c). lia.
Qed.

Lemma encode_items_pairs (rest : rankings_t) (kv : str * float) :
  encode_items (kv :: rest) ++ [nl] ++ lit "}" = indent4 ++ pairs_text kv rest.
Proof.
  revert kv. induction rest as [|kv' rest IH]; intros kv.
  - cbn [encode_items pairs_text]. unfold encode_item.
    now rewrite <- !app_assoc.
  - cbn [pairs_text]. rewrite <- IH.
    change (encode_items (kv :: kv' :: rest))
      with (encode_item kv ++ lit "," ++ [nl] ++ encode_items (kv' :: rest)).
    unfold encode_item. now rewrite <- !app_assoc.
Qed.

Lemma pairs_text_quote (kv : str * float) (rest : rankings_t) :
  exists t : str, pairs_text kv rest = (34 : char) :: t.
Proof. destruct rest; cbn [pairs_text]; unfold encode_str; eexists; reflexivity. Qed.

Lemma scan_value (v : float) (c : char) (r : str) :
  number_ok v -> ends_number c = true ->
  scan_number (skip_ws (floatstr v ++ c :: r)) = Some (v, c :: r).
Proof.
  intros Hv Hc. destruct (scan_number_head _ _ Hv) as (c0 & t0 & Ht & Hc0).
  assert (Hs : skip_ws (floatstr v ++ c :: r) = floatstr v ++ c :: r)
    by (rewrite Ht; apply skip_ws_stop; exact Hc0).
  rewrite Hs. now apply scan_number_app.
Qed.

Lemma scan_pairs_text (rest : rankings_t) (kv : str * float) (acc : rankings_t)
  (fuel : nat) :
  (List.length rest < fuel)%nat ->
  Forall (fun kv => number_ok (snd kv)) (kv :: rest) ->
  scan_pairs fuel (pairs_text kv rest) acc
  = Some (fold_left set_pair (kv :: rest) acc, []).
Proof.
  revert kv acc fuel. induction rest as [|kv' rest IH]; intros [k v] acc fuel Hf Hok;
    (destruct fuel as [|fuel]; [inversion Hf|]);
    inversion Hok as [|? ? Hv Hrest]; subst; cbn [snd] in Hv;
    cbn [pairs_text fst snd]; unfold encode_str;
    cbn [app scan_pairs]; rewrite <- app_assoc; cbn [app];
    (rewrite scanstring_escape
      by (rewrite length_app; pose proof (escape_length k); simpl; lia));
    change quote with 34; cbv iota;
    change (lit ": ") with [58; 32]; cbn [app];
    rewrite skip_ws_stop by reflexivity;
    rewrite skip_ws_ws by reflexivity.
  - change (lit "}") with [125].
    rewrite scan_value by (exact Hv || reflexivity).
    reflexivity.
  - change (lit "," ++ nl :: indent4 ++ pairs_text kv' rest)
      with (44 :: nl :: 32 :: 32 :: 32 :: 32 :: pairs_text kv' rest).
    rewrite scan_value by (exact Hv || reflexivity).
    rewrite skip_ws_stop by reflexivity.
    do 5 (rewrite skip_ws_ws by reflexivity).
    destruct kv' as [k' v'].
    assert (Hq : skip_ws (pairs_text (k', v') rest) = pairs_text (k', v') rest)
      by (destruct (pairs_text_quote (k', v') rest) as [t ->];
          apply skip_ws_stop; reflexivity).
    rewrite Hq, IH by (simpl in Hf; lia || exact Hrest).
    reflexivity.
Qed.

Lemma pairs_text_length (rest : rankings_t) (kv : str * float) :
  (List.length rest < List.length (pairs_text kv rest))%nat.
Proof.
  revert kv. induction rest as [|kv' rest IH]; intros kv; cbn [pairs_text];
    unfold encode_str; rewrite !length_app; cbn [List.length].
  - lia.
  - specialize (IH kv'). rewrite !length_app. lia.
Qed.

Lemma fold_set_pair_fresh (d acc : rankings_t) :
  NoDup (keys (acc ++ d)) -> fold_left set_pair d acc = acc ++ d.
Proof.
  revert acc. induction d as [|[k v] d IH]; intros acc Hnd; simpl.
  - now rewrite app_nil_r.
  - unfold set_pair at 2. cbn [fst snd].
    assert (Hk : ~ In k (keys acc)).
    { unfold keys in *. rewrite map_app in Hnd. simpl in Hnd.
      apply NoDup_remove_2 in Hnd. intros Hin. apply Hnd.
      apply in_or_app. now left. }
    rewrite (dict_set_fresh k v acc Hk), IH; rewrite <- app_assoc; auto.
Qed.

(** What [json.dumps] writes, [json.loads] reads back as the dictionary
    it was, when the names are distinct and each score can be held. *)
Lemma json_loads_dumps (d : rankings_t) :
  NoDup (keys d) ->
  Forall (fun kv => number_ok (snd kv)) d ->
  json_loads (json_dumps d) = Some d.
Proof.
  intros Hnd Hok. destruct d as [|kv rest]; [reflexivity|].
  unfold json_dumps.
  change (lit "{" ++ [nl] ++ encode_items (kv :: rest) ++ [nl] ++ lit "}")
    with (123 :: nl :: (encode_items (kv :: rest) ++ [nl] ++ lit "}")).
  rewrite encode_items_pairs.
  destruct (pairs_text_quote kv rest) as [t Ht].
  unfold json_loads. rewrite skip_ws_stop by reflexivity.
  change (nl :: indent4 ++ pairs_text kv rest)
    with (10 :: 32 :: 32 :: 32 :: 32 :: pairs_text kv rest).
  do 5 (rewrite skip_ws_ws by reflexivity).
  assert (Hq : skip_ws (pairs_text kv rest) = pairs_text kv rest)
    by (rewrite Ht; apply skip_ws_stop; reflexivity).
  rewrite Hq, Ht. cbv iota beta. rewrite <- Ht.
  rewrite scan_pairs_text by (apply pairs_text_length || exact Hok).
  rewrite (fold_set_pair_fresh (kv :: rest) []) by exact Hnd.
  reflexivity.
Qed.



Lemma float_eqb_eq (x y : float) : float_eqb x y = true -> x = y.
Proof.
  destruct x, y; simpl; try discriminate; try reflexivity.
  - intros H. apply Bool.eqb_prop in H. now subst.
  - intros H. apply Bool.eqb_prop in H. now subst.
  - intros H. apply andb_true_iff in H as [H He].
    apply andb_true_iff in H as [Hs Hm].
    apply Bool.eqb_prop in Hs. apply Pos.eqb_eq in Hm. apply Z.eqb_eq in He.
    now subst.
Qed.

Lemma number_okb_ok (v : float) : number_okb v = true -> number_ok v.
Proof.
  unfold number_okb, number_ok.
  destruct (scan_number (floatstr v)) as [[x [|c r]]|]; try discriminate.
  intros H. apply float_eqb_eq in H. now subst.
Qed.

(** Every rating from 0.00 to 10.00 can be held by the ranking file. *)
Lemma ratings_ok (n : nat) : (n <= 1000)%nat -> number_ok (rating n).
Proof.
  intros Hn. apply number_okb_ok.
  assert (H : forallb (fun n => number_okb (rating n)) (seq 0 1001) = true)
    by (vm_compute; reflexivity).
  rewrite forallb_forall in H. apply H. apply in_seq. lia.
Qed.

(** A table of ratings from 0.00 to 10.00 under distinct names is saved
    and loaded back as it was. *)
Lemma rating_table_round_trip (linter : option str -> result CompletedProcess)
  (rankings : rankings_t) (w : world) :
  NoDup (keys rankings) ->
  Forall (fun kv => exists n, (n <= 1000)%nat /\ snd kv = rating n) rankings ->
  let rt := py_runtime linter in
  fst (load_rankings rt (snd (save_rankings rt rankings w))) = Return rankings.
Proof.
  intros Hnd Hr rt. unfold save_rankings, load_rankings, emit.
  cbn [snd fst ranking_file json_dump json_load rt py_runtime].
  rewrite json_loads_dumps; [reflexivity|exact Hnd|].
  eapply Forall_impl; [|exact Hr].
  intros kv (n & Hn & ->). now apply ratings_ok.
Qed.

(** What [json.loads] returns has distinct keys. *)
Lemma scan_pairs_NoDup (fuel : nat) (s : str) (acc d : rankings_t) (rest : str) :
  NoDup (keys acc) ->
  scan_pairs fuel s acc = Some (d, rest) ->
  NoDup (keys d).
Proof.
  revert s acc. induction fuel as [|fuel IH]; intros s acc Hacc H; [discriminate|].
  cbn [scan_pairs] in H.
  repeat match type of H with
         | context [match ?x with _ => _ end] =>
             destruct x eqn:?; try discriminate H
         end.
  - injection H as <- _. now apply dict_set_NoDup.
  - eapply IH; [|exact H]. now apply dict_set_NoDup.
Qed.

Lemma json_loads_NoDup (text : str) (d : rankings_t) :
  json_loads text = Some d -> NoDup (keys d).
Proof.
  unfold json_loads. intros H.
  repeat match type of H with
         | context [match ?x with _ => _ end] =>
             destruct x eqn:?; try discriminate H
         | context [if ?x then _ else _] =>
             destruct x eqn:?; try discriminate H
         end;
    injection H as <-;
    first [apply NoDup_nil|eapply scan_pairs_NoDup; [|eassumption]; apply NoDup_nil].
Qed.

(** The dictionary a battle saves has distinct keys when the one it
    loaded has. *)
Lemma final_rankings_NoDup (rt : runtime) (s : session) (r : rankings_t) :
  NoDup (keys r) -> NoDup (keys (final_rankings rt s r)).
Proof.
  intros Hnd. unfold final_rankings, side_rankings.
  destruct (submitted (code_a s)), (submitted (code_b s));
    auto using update_rankings_NoDup.
Qed.

(** * More properties of the code *)

(** ** Lines and fields *)








(** ** The rated line *)








(** ** The score extractor and the rest of the world *)

Lemma filter_banner (rt : runtime) (code : str) (p : event -> bool) :
  (forall e, p (Show (st_error_pylint e)) = false) ->
  filter p (banner rt code) = [].
Proof.
  intros Hp. destruct (banner_cases rt code) as [->|[e ->]]; [reflexivity|].
  cbn. now rewrite Hp.
Qed.

(** X3: a call of the score extractor whose code text the encoding of
    the temporary file can encode creates the file first, starts the
    linter exactly once, on that file, removes the file last, returns a
    score and leaves the directory as it found it. A call whose code text
    cannot be encoded raises [UnicodeEncodeError] out of [temp.write]: it
    starts no linter and leaves the file it created, empty, in the
    directory. Neither call writes or changes the ranking file. *)
Theorem get_pylint_score_frame (enc : str -> bool) (rt : runtime) (code : str)
  (w : world) :
  let call := Codec.get_pylint_score enc rt code in
  let temp_path := fresh (temp_files w) in
  (enc code = true ->
   (exists x, fst (call w) = Return x) /\
   (exists evs,
      events_of call w = TempCreated temp_path :: evs ++ [TempRemoved temp_path]) /\
   filter is_run (events_of call w) = [PylintRun temp_path] /\
   temp_files (snd (call w)) = temp_files w) /\
  (enc code = false ->
   fst (call w) = Raise UnicodeEncodeError /\
   events_of call w = [TempCreated temp_path] /\
   temp_files (snd (call w)) = (temp_path, []) :: temp_files w) /\
  filter is_write (events_of call w) = [] /\
  ranking_file (snd (call w)) = ranking_file w.
Proof.
  intros call temp_path. subst call temp_path.
  rewrite events_of_get_pylint_score.
  destruct (enc code) eqn:He.
  - rewrite get_pylint_score_written, get_pylint_score_run by exact He.
    cbn [fst snd ranking_file temp_files with_log].
    unfold scoring_events. rewrite !filter_app, !filter_banner by reflexivity.
    split; [intros _|split; [discriminate|split; reflexivity]].
    split; [eauto|]. split; [|split; reflexivity].
    exists (PylintRun (fresh (temp_files w)) :: banner rt code). reflexivity.
  - rewrite get_pylint_score_unwritten by exact He.
    cbn [fst snd ranking_file temp_files].
    split; [discriminate|]. split; [|split; reflexivity].
    intros _. repeat split.
Qed.

Lemma get_pylint_score_frame_witness :
  filter is_run (events_of (Codec.get_pylint_score utf8 example_rt (lit "x = 1"))
                           (world0 None))
  = [PylintRun 1]
  /\ temp_files (snd (Codec.get_pylint_score utf8 example_rt lone (world0 None)))
     = [(1, [])].
Proof.
  split.
  - pose proof (get_pylint_score_frame utf8 example_rt (lit "x = 1") (world0 None))
      as (H & _).
    destruct (H eq_refl) as (_ & _ & Hr & _). exact Hr.
  - pose proof (get_pylint_score_frame utf8 example_rt lone (world0 None))
      as (_ & H & _).
    destruct (H eq_refl) as (_ & _ & Hf). exact Hf.
Defined.

(** ** The page without a battle *)

(** X4: in a run of the script in which the button is not pressed (and
    the ranking file is absent or decodes), the page shows its title, its
    introduction and its widgets and nothing else: no verdict, no linter
    run, no temporary file, and the ranking file is left as it was. *)
Theorem main_without_button (rt : runtime) (s : session) (w : world)
  (r : rankings_t) :
  loads rt w r -> button s = false ->
  fst (main rt s w) = Return tt /\
  events_of (main rt s) w = page_events s w /\
  verdicts (events_of (main rt s) w) = [] /\
  filter is_scoring (events_of (main rt s) w) = [] /\
  filter is_write (events_of (main rt s) w) = [] /\
  ranking_file (snd (main rt s w)) = ranking_file w /\
  temp_files (snd (main rt s w)) = temp_files w.
Proof.
  intros Hl Hb.
  rewrite (events_of_main rt s w r Hl), (main_run rt s w r Hl), Hb, app_nil_r.
  destruct (filter_scoring_page s w) as [F1 F2].
  rewrite verdicts_page, F1, F2. repeat split.
Qed.

Lemma main_without_button_witness :
  events_of (main example_rt idle) (world0 None) = page_events idle (world0 None)
  /\ ranking_file (snd (main example_rt idle (world0 None))) = None.
Proof.
  pose proof (main_without_button example_rt idle (world0 None) [] eq_refl eq_refl)
    as (_ & H1 & _ & _ & _ & H2 & _).
  split; [exact H1|exact H2].
Defined.

(** ** The guard *)







(** ** The leaderboard *)

Ltac cmp_cases :=
  repeat match goal with
         | |- context [(?a ?= ?b)%Z] => destruct (Z.compare_spec a b)
         | |- context [Pos.compare_cont Eq ?a ?b] =>
             change (Pos.compare_cont Eq a b) with (Pos.compare a b);
             destruct (Pos.compare_spec a b)
         end.

(** [a < c] needs [a < b] or [b < c], for any [b] that is a number. *)
Lemma flt_between (a b c : float) :
  b <> S754_nan -> flt a c = true -> flt a b = true \/ flt b c = true.
Proof.
  unfold flt, SFltb, SFcompare. intros Hb.
  destruct a as [sa|sa| |sa ma ea], b as [sb|sb| |sb mb eb], c as [sc|sc| |sc mc ec];
    try congruence;
    try destruct sa; try destruct sb; try destruct sc;
    try discriminate; auto;
    cmp_cases; simpl; try discriminate; auto; try lia.
Qed.

(** Two floats equal to a third are not below one another. *)
Lemma feq_not_flt (x y v : float) :
  feq x v = true -> feq y v = true -> flt x y = false.
Proof.
  unfold feq, flt, SFeqb, SFltb, SFcompare.
  destruct x as [sx|sx| |sx mx ex], y as [sy|sy| |sy my ey], v as [sv|sv| |sv mv ev];
    try discriminate;
    try destruct sx; try destruct sy; try destruct sv;
    try discriminate; auto;
    cmp_cases; simpl; try discriminate; auto; try lia.
Qed.

Lemma flt_asym (a b : float) : flt a b = true -> flt b a = false.
Proof. intros H. apply (fgt_asym b a). exact H. Qed.

Lemma insert_desc_perm (x : str * float) (l : list (str * float)) :
  Permutation (insert_desc x l) (x :: l).
Proof.
  induction l as [|y l IH]; simpl; [reflexivity|].
  destruct (flt (snd x) (snd y)); [|reflexivity].
  rewrite IH. apply perm_swap.
Qed.

Lemma sorted_desc_perm (r : rankings_t) : Permutation (sorted_desc r) r.
Proof.
  induction r as [|x r IH]; simpl; [reflexivity|].
  rewrite insert_desc_perm. now constructor.
Qed.

Lemma not_below_trans (x y z : str * float) :
  snd y <> S754_nan -> not_below x y -> not_below y z -> not_below x z.
Proof.
  unfold not_below. intros Hy Hxy Hyz.
  destruct (flt (snd x) (snd z)) eqn:E; [|reflexivity].
  destruct (flt_between _ _ _ Hy E); congruence.
Qed.

Lemma insert_desc_sorted (x : str * float) (l : list (str * float)) :
  no_nan (x :: l) ->
  StronglySorted not_below l -> StronglySorted not_below (insert_desc x l).
Proof.
  intros Hnan Hs. induction Hs as [|y l Hs IH Hy]; simpl.
  - constructor; constructor.
  - inversion Hnan as [|? ? Hx Hl]; subst. inversion Hl as [|? ? Hyn Hln]; subst.
    destruct (flt (snd x) (snd y)) eqn:E.
    + constructor; [apply IH; now constructor|].
      rewrite (Forall_forall). intros z Hz.
      apply (Permutation_in _ (insert_desc_perm x l)) in Hz.
      destruct Hz as [<-|Hz].
      * now apply flt_asym.
      * rewrite Forall_forall in Hy. now apply Hy.
    + constructor; [now constructor|].
      constructor; [exact E|].
      rewrite Forall_forall in *. intros z Hz.
      apply (not_below_trans x y z); auto.
Qed.

Lemma sorted_desc_no_nan (r : rankings_t) : no_nan r -> no_nan (sorted_desc r).
Proof.
  unfold no_nan. rewrite !Forall_forall. intros H kv Hin.
  apply H. now apply (Permutation_in _ (sorted_desc_perm r)).
Qed.

Lemma sorted_desc_sorted (r : rankings_t) :
  no_nan r -> StronglySorted not_below (sorted_desc r).
Proof.
  induction r as [|x r IH]; intros Hnan; simpl; [constructor|].
  inversion Hnan as [|? ? Hx Hr]; subst.
  apply insert_desc_sorted; [|auto].
  constructor; [exact Hx|now apply sorted_desc_no_nan].
Qed.

Lemma tied_insert_desc (v : float) (x : str * float) (l : list (str * float)) :
  tied v (insert_desc x l) = tied v (x :: l).
Proof.
  unfold tied. induction l as [|y l IH]; simpl; [reflexivity|].
  destruct (flt (snd x) (snd y)) eqn:E; [|reflexivity].
  cbn [filter] in *. rewrite IH.
  destruct (feq (snd x) v) eqn:Ex, (feq (snd y) v) eqn:Ey; try reflexivity.
  rewrite (feq_not_flt _ _ _ Ex Ey) in E. discriminate.
Qed.

Lemma tied_sorted_desc (v : float) (r : rankings_t) :
  tied v (sorted_desc r) = tied v r.
Proof.
  induction r as [|x r IH]; simpl; [reflexivity|].
  rewrite tied_insert_desc. unfold tied in *. cbn [filter]. now rewrite IH.
Qed.

Lemma sorted_desc_fixed (r : rankings_t) :
  Sorted not_below r -> sorted_desc r = r.
Proof.
  induction 1 as [|x r Hs IH Hd]; simpl; [reflexivity|].
  rewrite IH. destruct Hd as [|y r Hxy]; [reflexivity|].
  simpl. unfold not_below in Hxy. now rewrite Hxy.
Qed.

Lemma rank_events_numbered (rows : list (str * float)) (idx : nat) :
  rank_events (N.of_nat idx) rows
  = List.map (fun ir => Show (st_write_rank (N.of_nat (fst ir)) (fst (snd ir))
                                            (snd (snd ir))))
             (combine (seq idx (List.length rows)) rows).
Proof.
  revert idx. induction rows as [|[dev score] rows IH]; intros idx; simpl;
    [reflexivity|].
  f_equal. rewrite <- IH. f_equal. lia.
Qed.

(** X7: the leaderboard of an empty table is the one message that there
    is no ranking data; the leaderboard of any other table without NaN
    scores is a rule, the header and one row for each entry of the table,
    the rows numbered 1, 2, 3, ... from the top. Showing it changes no
    file. (With a NaN among the scores the order of the rows is that of
    Python's sorting algorithm, which [sorted_desc] does not follow.) *)
Theorem display_rankings_rows (rankings : rankings_t) (w : world) :
  fst (display_rankings rankings w) = Return tt /\
  (rankings = [] ->
   events_of (display_rankings rankings) w = [Show st_info_no_rankings]) /\
  (rankings <> [] -> no_nan rankings ->
   events_of (display_rankings rankings) w
   = Show st_markdown_rule :: Show st_header_rankings
     :: numbered (sorted_desc rankings)) /\
  List.length (sorted_desc rankings) = List.length rankings /\
  ranking_file (snd (display_rankings rankings w)) = ranking_file w /\
  temp_files (snd (display_rankings rankings w)) = temp_files w.
Proof.
  unfold events_of. rewrite display_rankings_run.
  cbn [fst snd log ranking_file temp_files with_log]. rewrite skipn_app_length.
  split; [reflexivity|]. split; [|split; [|split]].
  - intros ->. reflexivity.
  - intros Hne _. destruct rankings as [|kv r]; [contradiction|].
    unfold display_events, numbered.
    now rewrite <- (rank_events_numbered _ 1).
  - apply Permutation_length, sorted_desc_perm.
  - auto.
Qed.

Lemma display_rankings_rows_witness :
  events_of (display_rankings tie_table) (world0 None)
  = Show st_markdown_rule :: Show st_header_rankings
    :: numbered (sorted_desc tie_table).
Proof.
  pose proof (display_rankings_rows tie_table (world0 None)) as (_ & _ & H & _).
  apply H; [discriminate|].
  repeat (constructor; [discriminate|]). constructor.
Defined.

(** X8: for a table without NaN scores the rows of the leaderboard are
    the entries of the table, each once, in descending order of score:
    no row has a lower score than any row below it. *)
Theorem leaderboard_descending (rankings : rankings_t) :
  no_nan rankings ->
  Permutation (sorted_desc rankings) rankings /\
  StronglySorted not_below (sorted_desc rankings).
Proof.
  intros Hnan. split; [apply sorted_desc_perm|now apply sorted_desc_sorted].
Qed.

Lemma leaderboard_descending_witness :
  Permutation (sorted_desc tie_table) tie_table /\
  StronglySorted not_below (sorted_desc tie_table).
Proof.
  apply (leaderboard_descending tie_table).
  repeat constructor; discriminate.
Defined.

(** X9: for a table without NaN scores, developers with equal scores
    keep on the leaderboard the order they have in the table; a table
    that is already in descending order is shown in its own order. *)
Theorem leaderboard_stable (rankings : rankings_t) :
  no_nan rankings ->
  (forall v, tied v (sorted_desc rankings) = tied v rankings) /\
  (Sorted not_below rankings -> sorted_desc rankings = rankings).
Proof.
  intros _. split; [intros v; apply tied_sorted_desc|apply sorted_desc_fixed].
Qed.

Lemma leaderboard_stable_witness :
  tied f7_5 (sorted_desc tie_table) = [(dev_A, f7_5); (dev_B, f7_5)].
Proof.
  refine (proj1 (leaderboard_stable tie_table _) f7_5).
  repeat constructor; discriminate.
Defined.

(** ** Updating the table *)

Lemma dict_set_twice (k : str) (v1 v2 : float) (d : rankings_t) :
  dict_set k v2 (dict_set k v1 d) = dict_set k v2 d.
Proof.
  induction d as [|[k' v'] d IH]; simpl.
  - now rewrite str_eqb_refl.
  - destruct (str_eqb k' k) eqn:E; simpl; rewrite E; [reflexivity|].
    now rewrite IH.
Qed.

(** X10: [update_rankings] never removes or moves an entry: for a
    developer already in the table the names and their order stay as
    they are and only that developer's score changes; for a new
    developer one entry is added, at the end. *)
Theorem update_rankings_shape (rankings : rankings_t) (developer : str)
  (score : float) :
  (In developer (keys rankings) ->
   keys (update_rankings rankings developer score) = keys rankings) /\
  (~ In developer (keys rankings) ->
   update_rankings rankings developer score = rankings ++ [(developer, score)]) /\
  (forall k, k <> developer ->
   dict_get k (update_rankings rankings developer score) = dict_get k rankings).
Proof.
  unfold update_rankings. split; [|split].
  - apply keys_dict_set_in.
  - apply dict_set_fresh.
  - intros k Hk. now apply dict_get_set_other.
Qed.

Lemma update_rankings_shape_witness :
  keys (update_rankings tie_table dev_B f0) = keys tie_table
  /\ update_rankings tie_table (lit "Developer D") f5
     = tie_table ++ [(lit "Developer D", f5)].
Proof.
  pose proof (update_rankings_shape tie_table dev_B f0) as (H1 & _).
  pose proof (update_rankings_shape tie_table (lit "Developer D") f5) as (_ & H2 & _).
  split.
  - apply H1. cbn. auto.
  - apply H2. cbn. intros [H|[H|[H|[]]]]; discriminate.
Defined.

(** X11: the table keeps no history: updating a developer twice leaves
    the table that the second update alone would leave, with the second
    score as that developer's entry. *)
Theorem update_rankings_last_wins (rankings : rankings_t) (developer : str)
  (first second : float) :
  update_rankings (update_rankings rankings developer first) developer second
  = update_rankings rankings developer second /\
  dict_get developer
    (update_rankings (update_rankings rankings developer first) developer second)
  = Some second.
Proof.
  unfold update_rankings. rewrite dict_set_twice.
  split; [reflexivity|apply dict_get_set_same].
Qed.

(** ** Battles *)

Lemma str_eq_dec (a b : str) : {a = b} + {a <> b}.
Proof. apply list_eq_dec, N.eq_dec. Qed.

Lemma dict_get_set (k k' : str) (v : float) (d : rankings_t) :
  dict_get k' (dict_set k v d) = if str_eq_dec k' k then Some v else dict_get k' d.
Proof.
  destruct (str_eq_dec k' k) as [->|Hne].
  - apply dict_get_set_same.
  - now apply dict_get_set_other.
Qed.

(** X12: with distinct names, which developer is A and which is B makes
    no difference to the scores the table holds after the battle: the
    two orders leave the same entry under every name. *)
Theorem table_order_independent (rt : runtime) (s : session) (r : rankings_t) :
  dev_a s <> dev_b s ->
  forall k, dict_get k (final_rankings rt (swap s) r)
            = dict_get k (final_rankings rt s r).
Proof.
  intros Hne k. unfold final_rankings, side_rankings, swap, update_rankings.
  cbn [dev_a dev_b code_a code_b].
  destruct (submitted (code_a s)), (submitted (code_b s)); try reflexivity.
  rewrite !dict_get_set.
  destruct (str_eq_dec k (dev_a s)) as [Ea|Ea], (str_eq_dec k (dev_b s)) as [Eb|Eb];
    try reflexivity.
  congruence.
Qed.

Lemma table_order_independent_witness :
  dict_get dev_A (final_rankings example_rt (swap both) [])
  = dict_get dev_A (final_rankings example_rt both []).
Proof.
  apply (table_order_independent example_rt both []). discriminate.
Defined.





(** ** The leaderboard of a battle *)










